(** * Report dispatcher (src/index.js): a shallow embedding and its properties

    The Lambda handler of the repository reads S3 object-created records out
    of an SNS envelope, aggregates the CI artifacts of the run, asks Bedrock
    for a summary and mails it through SES.  This file embeds the handler and
    the helper functions of [src/index.js] and proves the properties of the
    specification about them.

    JavaScript strings are sequences of 16-bit code units; they are modelled
    as lists of [N].  Lengths, [slice], [split], [replace] and [trim] all act
    on code units, exactly as in the language. *)

From Stdlib Require Import Ascii String DecimalString DecimalPos DecimalN.
From Stdlib Require Import List NArith ZArith Lia Bool.
Import ListNotations.

Set Implicit Arguments.
Set Warnings "-register-all".

(** ** Strings *)

Definition codeunit := N.
Definition jsstring := list codeunit.

(** An ASCII literal of the source as a JavaScript string. *)
Definition str (s : string) : jsstring := map N_of_ascii (list_ascii_of_string s).
Arguments str s%_string.

Definition LF : codeunit := 10%N.
Definition SPACE : codeunit := 32%N.
Definition PLUS : codeunit := 43%N.
Definition SLASH : codeunit := 47%N.
Definition COMMA : codeunit := 44%N.
Definition PERCENT : codeunit := 37%N.

Fixpoint js_eqb (a b : jsstring) : bool :=
  match a, b with
  | [], [] => true
  | x :: a', y :: b' => N.eqb x y && js_eqb a' b'
  | _, _ => false
  end.

(** [Boolean(s)] for a string: only the empty string is falsy. *)
Definition truthy_string (s : jsstring) : bool :=
  match s with [] => false | _ :: _ => true end.

(** [Boolean(v)] for a value that is a string or [null]/[undefined]. *)
Definition truthy_opt (v : option jsstring) : bool :=
  match v with Some s => truthy_string s | None => false end.

(** [v || d] for such a value. *)
Definition or_default (v : option jsstring) (d : jsstring) : jsstring :=
  match v with Some (c :: s) => c :: s | _ => d end.

(** [String(n)] and [`${n}`] for a non-negative integer [n]. *)
Definition number_toString (n : N) : jsstring :=
  str (NilEmpty.string_of_uint (N.to_uint n)).

(** [s.split(sep)] for a separator of one code unit. *)
Fixpoint split (sep : codeunit) (s : jsstring) : list jsstring :=
  match s with
  | [] => [[]]
  | c :: s' =>
      if N.eqb c sep then [] :: split sep s'
      else match split sep s' with
           | seg :: rest => (c :: seg) :: rest
           | [] => [[c]]
           end
  end.

(** [parts.join(sep)] for an array of strings. *)
Fixpoint join (sep : jsstring) (parts : list jsstring) : jsstring :=
  match parts with
  | [] => []
  | [p] => p
  | p :: rest => p ++ sep ++ join sep rest
  end.

(** WhiteSpace and LineTerminator code points of ECMAScript, the ones
    [String.prototype.trim] strips. *)
Definition is_js_whitespace (c : codeunit) : bool :=
  ((9 <=? c) && (c <=? 13) || N.eqb c 32 || N.eqb c 160 || N.eqb c 5760
   || (8192 <=? c) && (c <=? 8202) || N.eqb c 8232 || N.eqb c 8233
   || N.eqb c 8239 || N.eqb c 8287 || N.eqb c 12288 || N.eqb c 65279)%N.

Fixpoint trimStart (s : jsstring) : jsstring :=
  match s with
  | [] => []
  | c :: s' => if is_js_whitespace c then trimStart s' else s
  end.

Definition trimEnd (s : jsstring) : jsstring := rev (trimStart (rev s)).

Definition trim (s : jsstring) : jsstring := trimEnd (trimStart s).

(** [s.replace(/\+/g, " ")]: every plus sign becomes a space. *)
Definition replace_plus (s : jsstring) : jsstring :=
  map (fun c => if N.eqb c PLUS then SPACE else c) s.

(** ** Helpers of index.js: [truncate] and [runOf] *)

Definition TRUNCATE_MAX : nat := N.to_nat 60000.

(** [truncate(s, max)]; [s.slice(0,max)] is the prefix of [max] code units. *)
Definition truncate_at (max : nat) (s : jsstring) : jsstring :=
  if max <? length s
  then firstn max s
         ++ (LF :: str "...[truncated ")
         ++ number_toString (N.of_nat (length s - max))
         ++ str " chars]"
  else s.

(** The default argument [max=60000]; every call site of the source uses it. *)
Definition truncate (s : jsstring) : jsstring := truncate_at TRUNCATE_MAX s.

(** [runOf(key)]; [None] is JavaScript's [null]. *)
Definition runOf (key : jsstring) : option jsstring :=
  if 3 <=? length (split SLASH key)
  then nth_error (split SLASH key) 1
  else None.

(** The subject line of line 116, as a function of the configured prefix and
    of the run. *)
Definition subject_of (SUBJECT_PREFIX : jsstring) (run : option jsstring) : jsstring :=
  trim ((if truthy_string SUBJECT_PREFIX then SUBJECT_PREFIX ++ str " " else [])
          ++ str "CI Report "
          ++ (match run with
              | Some (c :: r) => str "- " ++ c :: r
              | _ => []
              end)).

Example runOf_unit : runOf (str "test-results/run1/unit.xml") = Some (str "run1").
Proof. reflexivity. Qed.
Example runOf_short : runOf (str "a/b") = None.
Proof. reflexivity. Qed.
Example runOf_empty_seg : runOf (str "a//b") = Some [].
Proof. reflexivity. Qed.
Example subject_ci_vpc : subject_of (str "[CI]") (Some (str "vpc")) = str "[CI] CI Report - vpc".
Proof. reflexivity. Qed.
Example truncate_ex : truncate_at 3 (str "abcdefghijklmnop") = str "abc" ++ LF :: str "...[truncated 13 chars]".
Proof. reflexivity. Qed.

(** ** Exceptions *)

(** What a JavaScript computation throws, or what a promise is rejected
    with.  [ServiceError] is the rejection of a call of an AWS client. *)
Inductive JSError : Type :=
| SyntaxError
| TypeError
| URIError
| ServiceError (message : jsstring).

Inductive Result (A : Type) : Type :=
| Ok (a : A)
| Throw (e : JSError).
Arguments Ok {A} a.
Arguments Throw {A} e.

Definition result_map {A B} (f : A -> B) (r : Result A) : Result B :=
  match r with Ok a => Ok (f a) | Throw e => Throw e end.

(** ** [decodeURIComponent] (ECMAScript, abstract operation Decode with an
    empty set of preserved escapes) *)

Definition hex_value (c : codeunit) : option N :=
  (if (48 <=? c) && (c <=? 57) then Some (c - 48)
   else if (65 <=? c) && (c <=? 70) then Some (c - 55)
   else if (97 <=? c) && (c <=? 102) then Some (c - 87)
   else None)%N.

(** An escape [%XX] at the head of [s]: its octet and what follows it. *)
Definition parse_escape (s : jsstring) : option (N * jsstring) :=
  match s with
  | p :: h :: l :: rest =>
      if N.eqb p PERCENT then
        match hex_value h, hex_value l with
        | Some a, Some b => Some (16 * a + b, rest)%N
        | _, _ => None
        end
      else None
  | _ => None
  end.

(** The [n] escaped octets that continue a multi-byte sequence. *)
Fixpoint continuation_octets (n : nat) (s : jsstring) : option (list N * jsstring) :=
  match n with
  | O => Some ([], s)
  | S n' =>
      match parse_escape s with
      | Some (b, rest) =>
          match continuation_octets n' rest with
          | Some (bs, rest') => Some (b :: bs, rest')
          | None => None
          end
      | None => None
      end
  end.

(** Number of leading 1 bits of an octet, for the octets of 128 and above. *)
Definition leading_ones (b : N) : nat :=
  if (b <? 192)%N then 1 else if (b <? 224)%N then 2
  else if (b <? 240)%N then 3 else if (b <? 248)%N then 4 else 5.

Definition is_continuation (b : N) : bool := ((128 <=? b) && (b <=? 191))%N.

Definition is_surrogate (v : N) : bool := ((55296 <=? v) && (v <=? 57343))%N.

(** The code point of a well-formed UTF-8 sequence of a lead octet and its
    continuation octets: no overlong form, no surrogate, at most U+10FFFF. *)
Definition utf8_code_point (b : N) (conts : list N) : option N :=
  if forallb is_continuation conts then
    match conts with
    | [c1] =>
        let v := ((b - 192) * 64 + (c1 - 128))%N in
        if (128 <=? v)%N then Some v else None
    | [c1; c2] =>
        let v := ((b - 224) * 4096 + (c1 - 128) * 64 + (c2 - 128))%N in
        if (2048 <=? v)%N && negb (is_surrogate v) then Some v else None
    | [c1; c2; c3] =>
        let v := ((b - 240) * 262144 + (c1 - 128) * 4096 + (c2 - 128) * 64 + (c3 - 128))%N in
        if (65536 <=? v)%N && (v <=? 1114111)%N then Some v else None
    | _ => None
    end
  else None.

(** UTF16EncodeCodePoint. *)
Definition utf16_encode (v : N) : jsstring :=
  if (v <=? 65535)%N then [v]
  else [((v - 65536) / 1024 + 55296)%N; ((v - 65536) mod 1024 + 56320)%N].

(** The loop of Decode; every round consumes at least one code unit, so a
    fuel of the length of the string is never exhausted
    ([decode_loop_fuel]). *)
Fixpoint decode_loop (fuel : nat) (s : jsstring) : Result jsstring :=
  match s with
  | [] => Ok []
  | c :: rest =>
      match fuel with
      | O => Throw URIError
      | S fuel' =>
          if N.eqb c PERCENT then
            match parse_escape s with
            | None => Throw URIError
            | Some (b, rest1) =>
                if (b <? 128)%N then result_map (cons b) (decode_loop fuel' rest1)
                else
                  let n := leading_ones b in
                  if (n =? 1) || (4 <? n) then Throw URIError
                  else
                    match continuation_octets (n - 1) rest1 with
                    | None => Throw URIError
                    | Some (conts, rest2) =>
                        match utf8_code_point b conts with
                        | None => Throw URIError
                        | Some v =>
                            result_map (app (utf16_encode v)) (decode_loop fuel' rest2)
                        end
                    end
            end
          else result_map (cons c) (decode_loop fuel' rest)
      end
  end.

Definition decodeURIComponent (s : jsstring) : Result jsstring :=
  decode_loop (length s) s.

Example decode_plain : decodeURIComponent (str "test-results/run1/unit.xml") = Ok (str "test-results/run1/unit.xml").
Proof. reflexivity. Qed.
Example decode_plus : decodeURIComponent (replace_plus (str "a%2Bb+c")) = Ok (str "a+b c").
Proof. reflexivity. Qed.
Example decode_euro : decodeURIComponent (str "%E2%82%AC") = Ok [8364%N].
Proof. reflexivity. Qed.
Example decode_astral : decodeURIComponent (str "%F0%9F%98%80") = Ok [55357%N; 56832%N].
Proof. reflexivity. Qed.
Example decode_bad : decodeURIComponent (str "50%") = Throw URIError.
Proof. reflexivity. Qed.
Example decode_overlong : decodeURIComponent (str "%C0%80") = Throw URIError.
Proof. reflexivity. Qed.

(** ** Values that [JSON.parse] returns *)

(** A number is kept as the decimal [mantissa * 10 ^ exponent] that its
    literal denotes.  An object is the list of its own properties. *)
Inductive JSValue : Type :=
| JNull
| JBool (b : bool)
| JNum (mantissa exponent : Z)
| JStr (s : jsstring)
| JArr (items : list JSValue)
| JObj (fields : list (jsstring * JSValue)).

(** Whether the double nearest to [m * 10 ^ e] is zero: the literal is zero,
    or its magnitude is at most [2 ^ -1075], half of the least positive
    double (the tie rounds to the even neighbour, zero). *)
Definition number_is_zero (m e : Z) : bool :=
  (Z.eqb m 0 || (e <? 0) && (Z.abs m * 2 ^ 1075 <=? 10 ^ (- e)))%Z.

(** [Boolean(v)]. *)
Definition truthy (v : JSValue) : bool :=
  match v with
  | JNull => false
  | JBool b => b
  | JNum m e => negb (number_is_zero m e)
  | JStr s => truthy_string s
  | JArr _ | JObj _ => true
  end.

Fixpoint lookup (name : jsstring) (fields : list (jsstring * JSValue)) : option JSValue :=
  match fields with
  | [] => None
  | (k, v) :: rest => if js_eqb k name then Some v else lookup name rest
  end.

(** [v.name] for a value [v] other than [null] and [undefined], and a name
    that no built-in prototype defines (the handler reads [Records], [s3],
    [object], [key], [results] and [outputText]); [None] is [undefined]. *)
Definition get_prop (v : JSValue) (name : jsstring) : option JSValue :=
  match v with
  | JObj fields => lookup name fields
  | _ => None
  end.

(** [v[0]] for a value other than [null] and [undefined]. *)
Definition get_index0 (v : JSValue) : option JSValue :=
  match v with
  | JArr (x :: _) => Some x
  | JStr (c :: _) => Some (JStr [c])
  | JObj fields => lookup (str "0") fields
  | _ => None
  end.

(** Whether [String(v)] throws a TypeError.  A primitive has a string; an
    array is joined from the strings of its elements ([null] gives the
    empty string); an object is converted by its method [toString], which
    is the one of [Object.prototype] unless the object has a property of
    that name: a property read by [JSON.parse] is never a function, and then
    neither [toString] nor [valueOf] yields a primitive. *)
Fixpoint toString_throws (v : JSValue) : bool :=
  match v with
  | JArr items => existsb toString_throws items
  | JObj fields =>
      match lookup (str "toString") fields with Some _ => true | None => false end
  | _ => false
  end.

(** Whether [String(report.length)] throws, for a [report] other than
    [null] and [undefined]: the length of a string or of an array is a
    number, an object has the length it holds as a property, and any other
    length is [undefined]. *)
Definition length_unprintable (report : JSValue) : bool :=
  match report with
  | JObj fields =>
      match lookup (str "length") fields with
      | Some v => toString_throws v
      | None => false
      end
  | _ => false
  end.

(** The argument of the [log] call of line 110. *)
Definition log_chars (report : JSValue) : Result unit :=
  if length_unprintable report then Throw TypeError else Ok tt.

(** [v.name] where [v] may be [null] or [undefined]: a TypeError then. *)
Definition member (v : option JSValue) (name : jsstring) : Result (option JSValue) :=
  match v with
  | None | Some JNull => Throw TypeError
  | Some x => Ok (get_prop x name)
  end.

(** [v?.name]. *)
Definition opt_member (v : option JSValue) (name : jsstring) : option JSValue :=
  match v with
  | None | Some JNull => None
  | Some x => get_prop x name
  end.

(** [v?.[0]]. *)
Definition opt_index0 (v : option JSValue) : option JSValue :=
  match v with
  | None | Some JNull => None
  | Some x => get_index0 x
  end.

(** [v ?? d]. *)
Definition nullish_or (v : option JSValue) (d : JSValue) : JSValue :=
  match v with
  | None | Some JNull => d
  | Some x => x
  end.

(** The code points a string iterator yields: a surrogate pair is one
    element, any other code unit is one. *)
Fixpoint code_points (s : jsstring) : list jsstring :=
  match s with
  | [] => []
  | c :: rest =>
      match rest with
      | d :: rest' =>
          if ((55296 <=? c) && (c <=? 56319) && (56320 <=? d) && (d <=? 57343))%N
          then [c; d] :: code_points rest'
          else [c] :: code_points rest
      | [] => [[c]]
      end
  end.

(** What [for (const r of v || [])] iterates over: a falsy value gives way
    to the empty array, arrays and strings are iterable, any other value is
    not (TypeError). *)
Definition iterate_or_empty (v : option JSValue) : Result (list JSValue) :=
  match v with
  | None => Ok []
  | Some x =>
      if truthy x then
        match x with
        | JArr items => Ok items
        | JStr s => Ok (map JStr (code_points s))
        | _ => Throw TypeError
        end
      else Ok []
  end.

(** ** The invocation payload and the configuration *)

(** The SNS event Lambda passes to the handler, with the fields the handler
    reads; each may be absent. *)
Record SnsMessage : Type := { Message : option jsstring }.
Record SnsRecord : Type := { Sns : option SnsMessage }.
Record Event : Type := { Records : option (list SnsRecord) }.

(** [process.env]. *)
Record Env : Type := {
  ARTIFACT_BUCKET : option jsstring;
  RECIPIENT_EMAILS : option jsstring;
  SENDER_EMAIL : option jsstring;
  EMAIL_SUBJECT_PREFIX : option jsstring;
  BEDROCK_MODEL_ID : option jsstring
}.

Definition BUCKET (env : Env) : option jsstring := ARTIFACT_BUCKET env.
Definition RECIPIENTS (env : Env) : list jsstring :=
  filter truthy_string (map trim (split COMMA (or_default (RECIPIENT_EMAILS env) []))).
Definition SENDER (env : Env) : option jsstring := SENDER_EMAIL env.
Definition SUBJECT_PREFIX (env : Env) : jsstring := or_default (EMAIL_SUBJECT_PREFIX env) [].
Definition MODEL_ID (env : Env) : jsstring :=
  or_default (BEDROCK_MODEL_ID env) (str "amazon.titan-text-express-v1").

(** ** The AWS services *)

(** The body of a fetched object, in the three shapes [bodyToString]
    tells apart: a byte array, an object with [transformToString] (with what
    that call resolves to or rejects with), and a stream (the chunks of its
    [data] events, closed by [end], or by [error] with its reason). *)
Inductive ObjectBody : Type :=
| BodyBytes (bytes : list N)
| BodyStringable (outcome : Result jsstring)
| BodyStream (chunks : list (list N)) (error : option JSError).

Record S3Object : Type := { Key : option jsstring }.
Record ListObjectsV2Output : Type := { Contents : option (list S3Object) }.
Record GetObjectOutput : Type := { Body : option ObjectBody }.
Record InvokeModelOutput : Type := { body : list N }.

(** The requests the handler sends.  The body of an [InvokeModel] request
    is [JSON.stringify(req)]; it is recorded as the value [req]. *)
Inductive Call : Type :=
| ListObjectsV2 (Bucket : option jsstring) (Prefix : jsstring)
| GetObject (Bucket : option jsstring) (ObjectKey : jsstring)
| InvokeModel (modelId contentType accept : jsstring) (req : JSValue)
| SendEmail (Source : option jsstring) (ToAddresses : list jsstring)
            (Subject : jsstring) (BodyText : JSValue).

(** The services as state transformers over a world [W]: each call
    resolves or rejects, and may change the world. *)
Record Services (W : Type) : Type := {
  s3_list : option jsstring -> jsstring -> W -> Result ListObjectsV2Output * W;
  s3_get : option jsstring -> jsstring -> W -> Result GetObjectOutput * W;
  bedrock_invoke : jsstring -> JSValue -> W -> Result InvokeModelOutput * W;
  ses_send : option jsstring -> list jsstring -> jsstring -> JSValue -> W -> Result unit * W
}.

(** Library functions of the runtime that the handler calls:
    [JSON.parse] ([None] is its SyntaxError), [new TextDecoder().decode]
    and [Buffer.concat(chunks).toString("utf-8")]. *)
Record Runtime : Type := {
  JSON_parse : jsstring -> option JSValue;
  TextDecoder_decode : list N -> jsstring;
  Buffer_toString_utf8 : list N -> jsstring
}.

(** ** The monad of the handler: state and exceptions *)

Record State (W : Type) : Type := { world : W; calls : list Call }.

Definition M (W A : Type) : Type := State W -> Result A * State W.

Definition ret {W A} (a : A) : M W A := fun st => (Ok a, st).

Definition bind {W A B} (m : M W A) (k : A -> M W B) : M W B :=
  fun st => match m st with
            | (Ok a, st') => k a st'
            | (Throw e, st') => (Throw e, st')
            end.

Definition lift {W A} (r : Result A) : M W A := fun st => (r, st).

(** [try { m } catch (e) { h e }]. *)
Definition try_catch {W A} (m : M W A) (h : JSError -> M W A) : M W A :=
  fun st => match m st with
            | (Ok a, st') => (Ok a, st')
            | (Throw e, st') => h e st'
            end.

Notation "x <- m ;; k" := (bind m (fun x => k))
  (at level 61, m at next level, right associativity).

(** [for (const x of xs) { f x }]. *)
Fixpoint for_each {W A} (f : A -> M W unit) (xs : list A) : M W unit :=
  match xs with
  | [] => ret tt
  | x :: rest => _ <- f x ;; for_each f rest
  end.

(** One request to a service: the request is recorded, the world answers. *)
Definition request {W A} (c : Call) (answer : W -> Result A * W) : M W A :=
  fun st =>
    let (r, w') := answer (world st) in
    (r, {| world := w'; calls := calls st ++ [c] |}).

(** ** The handler of index.js

    The handler awaits every call before it goes on, so its effects are
    sequential: they are written in a monad of state and exceptions, where
    the state is the world of the services and the trace of the requests
    sent so far.  The lines that [log] and [err] write to the console are
    not part of the model.  Their arguments are computed without
    exception, but for one: [String(report.length)] on line 110, inside
    the [try] of the summary, throws for some reports ([log_chars]). *)

Definition PROMPT_HEAD : jsstring := str "
You are a CI quality assistant. Create a clear, executive-friendly report from the data below.

Include sections:
- Build/Test Overview
- Unit/Integration test summary (pass/fail counts, notable failing tests)
- Code quality issues from SonarQube (rule types, severities, hotspots)
- Trends or risks
- Action items for the team

Be concise and readable for email. If data is missing, state assumptions.

<RAW_CI_DATA>
".

Definition PROMPT_TAIL : jsstring := str "
</RAW_CI_DATA>
".

(** [buildPrompt(allText)]. *)
Definition buildPrompt (allText : jsstring) : jsstring :=
  trim (PROMPT_HEAD ++ allText ++ PROMPT_TAIL).

(** The request object [req] of line 101. *)
Definition bedrock_request (prompt : jsstring) : JSValue :=
  JObj [ (str "inputText", JStr prompt);
         (str "textGenerationConfig",
          JObj [ (str "maxTokenCount", JNum 1500 0);
                 (str "temperature", JNum 2 (-1));
                 (str "topP", JNum 9 (-1));
                 (str "stopSequences", JArr []) ]) ].

(** [decoded?.results?.[0]?.outputText ?? ""]. *)
Definition output_text (decoded : JSValue) : JSValue :=
  nullish_or
    (opt_member (opt_index0 (opt_member (Some decoded) (str "results"))) (str "outputText"))
    (JStr []).

(** [r.s3.object.key.replace(/\+/g, " ")]: a TypeError when a link of the
    chain is [null] or [undefined], or when [key] is not a string (it then
    has no method [replace]). *)
Definition replaced_key (r : JSValue) : Result jsstring :=
  match member (Some r) (str "s3") with
  | Throw e => Throw e
  | Ok s3 =>
      match member s3 (str "object") with
      | Throw e => Throw e
      | Ok object =>
          match member object (str "key") with
          | Throw e => Throw e
          | Ok (Some (JStr raw)) => Ok (replace_plus raw)
          | Ok _ => Throw TypeError
          end
      end
  end.

(** Line 81: the key of an object record. *)
Definition decoded_key (r : JSValue) : Result jsstring :=
  match replaced_key r with
  | Ok s => decodeURIComponent s
  | Throw e => Throw e
  end.

Section Handler.

Context {W : Type}.
Variable aws : Services W.
Variable rt : Runtime.
Variable env : Env.

(** [bodyToString(body)]. *)
Definition bodyToString (b : option ObjectBody) : Result jsstring :=
  match b with
  | None => Ok []
  | Some (BodyBytes bytes) => Ok (TextDecoder_decode rt bytes)
  | Some (BodyStringable outcome) => outcome
  | Some (BodyStream chunks None) => Ok (Buffer_toString_utf8 rt (concat chunks))
  | Some (BodyStream _ (Some e)) => Throw e
  end.

Definition send_ListObjectsV2 (prefix : jsstring) : M W ListObjectsV2Output :=
  request (ListObjectsV2 (BUCKET env) prefix) (s3_list aws (BUCKET env) prefix).

Definition send_GetObject (key : jsstring) : M W GetObjectOutput :=
  request (GetObject (BUCKET env) key) (s3_get aws (BUCKET env) key).

(** The loop of [listPrefixText] over [list.Contents || []]; [out] is the
    array the loop pushes onto. *)
Fixpoint fetch_listed (out : list jsstring) (objs : list S3Object) : M W (list jsstring) :=
  match objs with
  | [] => ret out
  | obj :: rest =>
      match Key obj with
      | Some (c :: k) =>
          got <- send_GetObject (c :: k) ;;
          body_text <- lift (bodyToString (Body got)) ;;
          let text := truncate body_text in
          fetch_listed
            (out ++ [(LF :: str "--- FILE: ") ++ (c :: k) ++ str " ---" ++ [LF] ++ text])
            rest
      | _ => fetch_listed out rest
      end
  end.

(** [listPrefixText(prefix)]. *)
Definition listPrefixText (prefix : jsstring) : M W jsstring :=
  list <- send_ListObjectsV2 prefix ;;
  out <- fetch_listed [] (match Contents list with Some objs => objs | None => [] end) ;;
  ret (join [LF] out).

(** [sendEmail(subject, bodyText)]. *)
Definition sendEmail (subject : jsstring) (bodyText : JSValue) : M W unit :=
  request (SendEmail (SENDER env) (RECIPIENTS env) subject bodyText)
          (ses_send aws (SENDER env) (RECIPIENTS env) subject bodyText).

(** Lines 85 to 96: the aggregated text [collected] of a record. *)
Definition collect (key : jsstring) (run : option jsstring) : M W jsstring :=
  try_catch
    (collected <-
       match run with
       | Some (c :: r) =>
           tests <- listPrefixText (str "test-results/" ++ (c :: r) ++ str "/") ;;
           sonar <- listPrefixText (str "sonarqube/" ++ (c :: r) ++ str "/") ;;
           ret (join [LF] (filter truthy_string [tests; sonar]))
       | _ => ret []
       end ;;
     if negb (truthy_string collected) then
       got <- send_GetObject key ;;
       body_text <- lift (bodyToString (Body got)) ;;
       ret ((LF :: str "--- FILE: ") ++ key ++ str " ---" ++ [LF] ++ truncate body_text)
     else ret collected)
    (fun _ => ret []).

(** Lines 98 to 114: the report of a record. *)
Definition summarize (collected : jsstring) : M W JSValue :=
  try_catch
    (let prompt :=
       buildPrompt (if truthy_string collected then collected
                    else str "(no CI data found)") in
     let req := bedrock_request prompt in
     resp <- request (InvokeModel (MODEL_ID env) (str "application/json")
                                  (str "application/json") req)
                     (bedrock_invoke aws (MODEL_ID env) req) ;;
     decoded <- lift (match JSON_parse rt (TextDecoder_decode rt (body resp)) with
                      | Some v => Ok v
                      | None => Throw SyntaxError
                      end) ;;
     let report := output_text decoded in
     _ <- lift (log_chars report) ;;
     ret report)
    (fun _ =>
       ret (JStr (str "Bedrock failed to generate a report." ++ [LF; LF]
                    ++ (if truthy_string collected then collected
                        else str "(no CI data captured)")))).

(** Lines 116 to 118: the mail of a record. *)
Definition deliver (run : option jsstring) (report : JSValue) : M W unit :=
  let subject := subject_of (SUBJECT_PREFIX env) run in
  try_catch
    (sendEmail subject (if truthy report then report else JStr (str "(empty report)")))
    (fun _ => ret tt).

(** Lines 85 to 118, for the key of line 81 and the run of line 82. *)
Definition process_run (key : jsstring) (run : option jsstring) : M W unit :=
  collected <- collect key run ;;
  report <- summarize collected ;;
  deliver run report.

(** Lines 82 to 118. *)
Definition process_key (key : jsstring) : M W unit :=
  process_run key (runOf key).

(** The body of the inner loop: one object record. *)
Definition process_record (r : JSValue) : M W unit :=
  key <- lift (decoded_key r) ;;
  process_key key.

(** Line 78: [rec.Sns?.Message ? JSON.parse(rec.Sns.Message) : null]. *)
Definition parse_message (rec : SnsRecord) : Result JSValue :=
  match Sns rec with
  | Some {| Message := Some (c :: m) |} =>
      match JSON_parse rt (c :: m) with
      | Some v => Ok v
      | None => Throw SyntaxError
      end
  | _ => Ok JNull
  end.

(** The body of the outer loop: one SNS record. *)
Definition process_sns_record (rec : SnsRecord) : M W unit :=
  msg <- lift (parse_message rec) ;;
  s3Recs <- lift (iterate_or_empty (opt_member (Some msg) (str "Records"))) ;;
  for_each process_record s3Recs.

Record HandlerResult : Type := { ok : bool }.

(** [handler(event)]. *)
Definition handler (event : Event) : M W HandlerResult :=
  _ <- for_each process_sns_record
         (match Records event with Some recs => recs | None => [] end) ;;
  ret {| ok := true |}.

End Handler.

(** ** A model of the runtime's library functions *)

(** *** UTF-8 decoding with replacement (the decoder of the Encoding
    standard, which [TextDecoder] runs) *)

Record Utf8State : Type := {
  needed : nat;        (* continuation bytes still expected *)
  code_point : N;
  lower : N;
  upper : N
}.

Definition utf8_initial : Utf8State :=
  {| needed := 0; code_point := 0; lower := 128; upper := 191 |}.

Definition REPLACEMENT : N := 65533.

(** A byte read when no sequence is open: the code points it completes and
    the state it leaves. *)
Definition utf8_lead (b : N) : list N * Utf8State :=
  (if b <=? 127 then ([b], utf8_initial)
   else if (194 <=? b) && (b <=? 223) then
     ([], {| needed := 1; code_point := b - 192; lower := 128; upper := 191 |})
   else if (224 <=? b) && (b <=? 239) then
     ([], {| needed := 2; code_point := b - 224;
             lower := if b =? 224 then 160 else 128;
             upper := if b =? 237 then 159 else 191 |})
   else if (240 <=? b) && (b <=? 244) then
     ([], {| needed := 3; code_point := b - 240;
             lower := if b =? 240 then 144 else 128;
             upper := if b =? 244 then 143 else 191 |})
   else ([REPLACEMENT], utf8_initial))%N.

Definition utf8_step (st : Utf8State) (b : N) : list N * Utf8State :=
  match needed st with
  | O => utf8_lead b
  | S n =>
      if ((lower st <=? b) && (b <=? upper st))%N then
        let cp := (code_point st * 64 + (b - 128))%N in
        match n with
        | O => ([cp], utf8_initial)
        | S _ => ([], {| needed := n; code_point := cp; lower := 128; upper := 191 |})
        end
      else
        (* the open sequence is replaced, the byte is read again *)
        let (out, st') := utf8_lead b in (REPLACEMENT :: out, st')
  end.

Fixpoint utf8_run (st : Utf8State) (bytes : list N) : list N :=
  match bytes with
  | [] => match needed st with O => [] | S _ => [REPLACEMENT] end
  | b :: rest => let (out, st') := utf8_step st b in out ++ utf8_run st' rest
  end.

(** [buf.toString("utf-8")]: the code points, as UTF-16. *)
Definition utf8_to_string (bytes : list N) : jsstring :=
  flat_map utf16_encode (utf8_run utf8_initial bytes).

(** [new TextDecoder().decode(bytes)]: a byte order mark at the start is
    dropped first. *)
Definition text_decode (bytes : list N) : jsstring :=
  match bytes with
  | 239%N :: 187%N :: 191%N :: rest => utf8_to_string rest
  | _ => utf8_to_string bytes
  end.

(** *** [JSON.parse] *)

Fixpoint skip_ws (s : jsstring) : jsstring :=
  match s with
  | c :: rest =>
      if (N.eqb c 32 || N.eqb c 9 || N.eqb c 10 || N.eqb c 13)%N then skip_ws rest else s
  | [] => []
  end.

(** The characters of a string literal after its opening quote, up to the
    closing one. *)
Fixpoint parse_chars (s : jsstring) : option (jsstring * jsstring) :=
  match s with
  | [] => None
  | c :: rest =>
      if N.eqb c 34 then Some ([], rest)
      else if N.eqb c 92 then
        match rest with
        | e :: rest1 =>
            let simple (u : N) :=
              match parse_chars rest1 with
              | Some (t, r) => Some (u :: t, r)
              | None => None
              end in
            if N.eqb e 34 then simple 34%N
            else if N.eqb e 92 then simple 92%N
            else if N.eqb e 47 then simple 47%N
            else if N.eqb e 98 then simple 8%N
            else if N.eqb e 102 then simple 12%N
            else if N.eqb e 110 then simple 10%N
            else if N.eqb e 114 then simple 13%N
            else if N.eqb e 116 then simple 9%N
            else if N.eqb e 117 then
              match rest1 with
              | h1 :: h2 :: h3 :: h4 :: rest2 =>
                  match hex_value h1, hex_value h2, hex_value h3, hex_value h4 with
                  | Some a, Some b, Some c', Some d =>
                      match parse_chars rest2 with
                      | Some (t, r) => Some ((4096 * a + 256 * b + 16 * c' + d)%N :: t, r)
                      | None => None
                      end
                  | _, _, _, _ => None
                  end
              | _ => None
              end
            else None
        | [] => None
        end
      else if (c <? 32)%N then None
      else match parse_chars rest with
           | Some (t, r) => Some (c :: t, r)
           | None => None
           end
  end.

Definition is_digit (c : codeunit) : bool := ((48 <=? c) && (c <=? 57))%N.

(** The longest run of digits at the head of [s]. *)
Fixpoint parse_digits (s : jsstring) : list N * jsstring :=
  match s with
  | c :: rest =>
      if is_digit c then let (ds, r) := parse_digits rest in ((c - 48)%N :: ds, r)
      else ([], s)
  | [] => ([], [])
  end.

Definition digits_value (ds : list N) : Z :=
  fold_left (fun acc d => (10 * acc + Z.of_N d)%Z) ds 0%Z.

(** A number literal at the head of [s]. *)
Definition parse_number (s : jsstring) : option (JSValue * jsstring) :=
  let (negative, s1) :=
    match s with
    | c :: rest => if N.eqb c 45 then (true, rest) else (false, s)
    | [] => (false, s)
    end in
  let int_part :=
    match s1 with
    | c :: rest =>
        if N.eqb c 48 then Some ([0%N], rest)
        else if is_digit c then Some (parse_digits s1)
        else None
    | [] => None
    end in
  match int_part with
  | None => None
  | Some (int_digits, s2) =>
      let frac_part :=
        match s2 with
        | c :: rest =>
            if N.eqb c 46 then
              match parse_digits rest with
              | ([], _) => None
              | (ds, r) => Some (ds, r)
              end
            else Some ([], s2)
        | [] => Some ([], s2)
        end in
      match frac_part with
      | None => None
      | Some (frac_digits, s3) =>
          let exp_part :=
            match s3 with
            | c :: rest =>
                if (N.eqb c 101 || N.eqb c 69)%N then
                  let (exp_negative, rest1) :=
                    match rest with
                    | sg :: rest' =>
                        if N.eqb sg 45 then (true, rest')
                        else if N.eqb sg 43 then (false, rest')
                        else (false, rest)
                    | [] => (false, rest)
                    end in
                  match parse_digits rest1 with
                  | ([], _) => None
                  | (ds, r) =>
                      Some ((if exp_negative then - digits_value ds else digits_value ds)%Z, r)
                  end
                else Some (0%Z, s3)
            | [] => Some (0%Z, s3)
            end in
          match exp_part with
          | None => None
          | Some (e, s4) =>
              let m := digits_value (int_digits ++ frac_digits) in
              Some (JNum (if negative then - m else m)%Z
                         (e - Z.of_nat (length frac_digits))%Z, s4)
          end
      end
  end.

(** [s] begins with the literal [lit]: what follows it. *)
Fixpoint strip_prefix (lit s : jsstring) : option jsstring :=
  match lit, s with
  | [], _ => Some s
  | a :: lit', b :: s' => if N.eqb a b then strip_prefix lit' s' else None
  | _ :: _, [] => None
  end.

(** A property defined twice keeps its place and takes the later value. *)
Fixpoint set_field (k : jsstring) (v : JSValue) (fields : list (jsstring * JSValue))
  : list (jsstring * JSValue) :=
  match fields with
  | [] => [(k, v)]
  | (k', v') :: rest =>
      if js_eqb k' k then (k', v) :: rest else (k', v') :: set_field k v rest
  end.

(** The elements of an array after the first position: [s] starts at a
    value. *)
Fixpoint parse_elements (value : jsstring -> option (JSValue * jsstring))
         (fuel : nat) (s : jsstring) : option (list JSValue * jsstring) :=
  match fuel with
  | O => None
  | S fuel' =>
      match value s with
      | None => None
      | Some (v, rest) =>
          match skip_ws rest with
          | c :: rest' =>
              if N.eqb c 44 then
                match parse_elements value fuel' rest' with
                | Some (vs, r) => Some (v :: vs, r)
                | None => None
                end
              else if N.eqb c 93 then Some ([v], rest')
              else None
          | [] => None
          end
      end
  end.

(** The members of an object: [s] starts at a member; [acc] holds the
    members read so far. *)
Fixpoint parse_members (value : jsstring -> option (JSValue * jsstring))
         (fuel : nat) (acc : list (jsstring * JSValue)) (s : jsstring)
  : option (list (jsstring * JSValue) * jsstring) :=
  match fuel with
  | O => None
  | S fuel' =>
      match skip_ws s with
      | q :: rest =>
          if N.eqb q 34 then
            match parse_chars rest with
            | None => None
            | Some (k, rest1) =>
                match skip_ws rest1 with
                | colon :: rest2 =>
                    if N.eqb colon 58 then
                      match value rest2 with
                      | None => None
                      | Some (v, rest3) =>
                          let acc' := set_field k v acc in
                          match skip_ws rest3 with
                          | c :: rest4 =>
                              if N.eqb c 44 then parse_members value fuel' acc' rest4
                              else if N.eqb c 125 then Some (acc', rest4)
                              else None
                          | [] => None
                          end
                      end
                    else None
                | [] => None
                end
            end
          else None
      | [] => None
      end
  end.

(** A JSON value at the head of [s], white space before it skipped.  Every
    call on the way down reads at least one character first, so a fuel
    above the length of the text is not exhausted. *)
Fixpoint parse_value (fuel : nat) (s : jsstring) : option (JSValue * jsstring) :=
  match fuel with
  | O => None
  | S fuel' =>
      match skip_ws s with
      | [] => None
      | c :: rest =>
          if N.eqb c 123 then
            match skip_ws rest with
            | d :: rest' =>
                if N.eqb d 125 then Some (JObj [], rest')
                else match parse_members (parse_value fuel') fuel' [] rest with
                     | Some (fields, r) => Some (JObj fields, r)
                     | None => None
                     end
            | [] => None
            end
          else if N.eqb c 91 then
            match skip_ws rest with
            | d :: rest' =>
                if N.eqb d 93 then Some (JArr [], rest')
                else match parse_elements (parse_value fuel') fuel' rest with
                     | Some (items, r) => Some (JArr items, r)
                     | None => None
                     end
            | [] => None
            end
          else if N.eqb c 34 then
            match parse_chars rest with
            | Some (t, r) => Some (JStr t, r)
            | None => None
            end
          else if N.eqb c 116 then
            option_map (fun r => (JBool true, r)) (strip_prefix (str "true") (c :: rest))
          else if N.eqb c 102 then
            option_map (fun r => (JBool false, r)) (strip_prefix (str "false") (c :: rest))
          else if N.eqb c 110 then
            option_map (fun r => (JNull, r)) (strip_prefix (str "null") (c :: rest))
          else parse_number (c :: rest)
      end
  end.

(** [JSON.parse(text)]; [None] is the SyntaxError. *)
Definition json_parse (text : jsstring) : option JSValue :=
  match parse_value (S (length text)) text with
  | Some (v, rest) => match skip_ws rest with [] => Some v | _ :: _ => None end
  | None => None
  end.

Definition node_runtime : Runtime :=
  {| JSON_parse := json_parse;
     TextDecoder_decode := text_decode;
     Buffer_toString_utf8 := utf8_to_string |}.

(** JSON text written with an apostrophe where the text has a quotation
    mark. *)
Definition json_text (s : string) : jsstring :=
  map (fun c => if N.eqb c 39 then 34%N else c) (str s).
Arguments json_text s%_string.

Example json_s3_event :
  json_parse (json_text "{ 'Records': [ {'s3':{'object':{'key':'a/b/c'}}} ] }")
  = Some (JObj [(str "Records",
                 JArr [JObj [(str "s3", JObj [(str "object", JObj [(str "key", JStr (str "a/b/c"))])])]])]).
Proof. reflexivity. Qed.
Example json_numbers :
  json_parse (json_text "[0, -12.50e+3, 1E-2, true, false, null, '\u0041\n']")
  = Some (JArr [JNum 0 0; JNum (-1250) 1; JNum 1 (-2); JBool true; JBool false; JNull;
                JStr [65%N; 10%N]]).
Proof. reflexivity. Qed.
Example json_duplicate : json_parse (json_text "{'a':1,'b':2,'a':3}")
  = Some (JObj [(str "a", JNum 3 0); (str "b", JNum 2 0)]).
Proof. reflexivity. Qed.
Example json_bad_1 : json_parse (str "not json") = None.
Proof. reflexivity. Qed.
Example json_bad_2 : json_parse (json_text "{'Records': [}") = None.
Proof. reflexivity. Qed.
Example json_bad_3 : json_parse (str "01") = None.
Proof. reflexivity. Qed.
Example json_bad_4 : json_parse (str "[1,]") = None.
Proof. reflexivity. Qed.
Example json_bad_5 : json_parse (str "") = None.
Proof. reflexivity. Qed.
Example text_decode_ascii : text_decode (str "{}") = str "{}".
Proof. reflexivity. Qed.
Example text_decode_euro : text_decode [226; 130; 172]%N = [8364%N].
Proof. reflexivity. Qed.
Example text_decode_truncated : text_decode [97; 226; 130]%N = [97%N; REPLACEMENT].
Proof. reflexivity. Qed.
Example text_decode_bom : text_decode [239; 187; 191; 97]%N = [97%N].
Proof. reflexivity. Qed.
Example number_tiny_is_zero : truthy (JNum 1 (-400)) = false.
Proof. vm_compute. reflexivity. Qed.
Example number_small_is_not_zero : truthy (JNum 5 (-324)) = true.
Proof. vm_compute. reflexivity. Qed.

(** ** An example deployment: a bucket held in memory *)

Definition has_prefix (prefix s : jsstring) : bool :=
  match strip_prefix prefix s with Some _ => true | None => false end.

Fixpoint find_object (key : jsstring) (objects : list (jsstring * jsstring)) : option jsstring :=
  match objects with
  | [] => None
  | (k, text) :: rest => if js_eqb k key then Some text else find_object key rest
  end.

(** The world is the content of the bucket, a list of keys with their
    text.  Listing a prefix answers the keys under it ([Contents] is absent
    when there is none), fetching a key answers its text or is rejected,
    the model answers [reply] and every mail is accepted. *)
Definition memory_services (reply : Result InvokeModelOutput)
  : Services (list (jsstring * jsstring)) :=
  {| s3_list := fun _ prefix objects =>
       (Ok {| Contents :=
                match filter (fun kv => has_prefix prefix (fst kv)) objects with
                | [] => None
                | found => Some (map (fun kv => {| Key := Some (fst kv) |}) found)
                end |}, objects);
     s3_get := fun _ key objects =>
       (match find_object key objects with
        | Some text => Ok {| Body := Some (BodyStringable (Ok text)) |}
        | None => Throw (ServiceError (str "NoSuchKey"))
        end, objects);
     bedrock_invoke := fun _ _ objects => (reply, objects);
     ses_send := fun _ _ _ _ objects => (Ok tt, objects) |}.

Definition example_env : Env :=
  {| ARTIFACT_BUCKET := Some (str "B");
     RECIPIENT_EMAILS := Some (str "dev@example.com, qa@example.com");
     SENDER_EMAIL := Some (str "ci@example.com");
     EMAIL_SUBJECT_PREFIX := Some (str "[CI]");
     BEDROCK_MODEL_ID := None |}.

Definition example_bucket : list (jsstring * jsstring) :=
  [ (str "test-results/run1/unit.xml", str "<testsuite tests='2' failures='0'/>");
    (str "test-results/run1/e2e.xml", str "<testsuite tests='5' failures='1'/>");
    (str "sonarqube/run1/scan.log", str "INFO: 3 code smells");
    (str "notes.txt", str "hello") ].

(** The answer of the model: a JSON document in UTF-8. *)
Definition example_reply : Result InvokeModelOutput :=
  Ok {| body := json_text "{'inputTextTokenCount':9,'results':[{'tokenCount':2,'outputText':'All green.','completionReason':'FINISH'}]}" |}.

(** Two failures of the model: the request is refused, and the answer is
    not JSON. *)
Definition refused_reply : Result InvokeModelOutput :=
  Throw (ServiceError (str "AccessDeniedException")).

Definition garbled_reply : Result InvokeModelOutput :=
  Ok {| body := str "<html>502 Bad Gateway</html>" |}.

(** An answer in which the length of the text cannot be converted to a
    string, and a JSON document that is not an answer of the model. *)
Definition unprintable_reply : Result InvokeModelOutput :=
  Ok {| body := json_text "{'results':[{'outputText':{'length':{'toString':null}}}]}" |}.

Definition error_document_reply : Result InvokeModelOutput :=
  Ok {| body := json_text "{'message':'Too many requests, please wait before trying again.'}" |}.

Definition start (objects : list (jsstring * jsstring)) : State (list (jsstring * jsstring)) :=
  {| world := objects; calls := [] |}.

Definition sns (message : jsstring) : SnsRecord :=
  {| Sns := Some {| Message := Some message |} |}.

(** An object record with the key [raw], as S3 writes it. *)
Definition object_record (raw : jsstring) : JSValue :=
  JObj [ (str "eventName", JStr (str "ObjectCreated:Put"));
         (str "s3", JObj [ (str "bucket", JObj [(str "name", JStr (str "B"))]);
                           (str "object", JObj [(str "key", JStr raw)]) ]) ].

(** The message of the test event of the README. *)
Definition readme_message : jsstring :=
  json_text "{'Records':[{'s3':{'bucket':{'name':'B'},'object':{'key':'test-results/vpc/unit.xml'}}}]}".

Definition unit_xml_message : jsstring :=
  json_text "{'Records':[{'eventName':'ObjectCreated:Put','s3':{'bucket':{'name':'B'},'object':{'key':'test-results/run1/unit.xml','size':37}}}]}".

(** ** Definitions used to state the properties *)

(** The number a run of decimal digits denotes. *)
Fixpoint read_digits (acc : N) (s : jsstring) : option N :=
  match s with
  | [] => Some acc
  | c :: rest => if is_digit c then read_digits (10 * acc + (c - 48))%N rest else None
  end.

Definition read_decimal (s : jsstring) : option N :=
  match s with [] => None | _ :: _ => read_digits 0%N s end.

(** The marker [truncate] appends for [omitted] characters left out. *)
Definition omission_marker (omitted : nat) : jsstring :=
  (LF :: str "...[truncated ") ++ number_toString (N.of_nat omitted) ++ str " chars]".

(** A section of the aggregated buffer: the delimiter line naming the
    key, then the text. *)
Definition file_section (key text : jsstring) : jsstring :=
  (LF :: str "--- FILE: ") ++ key ++ str " ---" ++ [LF] ++ text.

(** The template of [buildPrompt] once trimmed: its text before the
    buffer and its text after it. *)
Definition PROMPT_OPENING : jsstring := tl PROMPT_HEAD.
Definition PROMPT_CLOSING : jsstring := removelast PROMPT_TAIL.

(** The subject in the words of the specification: the prefix, the label
    [CI Report] and, when there is a group, a dash and the group, with the
    white space around the whole trimmed. *)
Definition spec_subject (prefix : jsstring) (group : option jsstring) : jsstring :=
  trim (prefix ++ str " " ++ str "CI Report"
          ++ match group with Some g => str " - " ++ g | None => [] end).

(** The run as a group: a run that is [null] or empty names no group. *)
Definition group_of (run : option jsstring) : option jsstring :=
  match run with Some (c :: r) => Some (c :: r) | _ => None end.

(** The keys of a listing that the loop of [listPrefixText] fetches: the
    ones that are present and not empty, in the order of the listing. *)
Fixpoint listed_keys (objs : list S3Object) : list jsstring :=
  match objs with
  | [] => []
  | obj :: rest =>
      match Key obj with
      | Some (c :: k) => (c :: k) :: listed_keys rest
      | _ => listed_keys rest
      end
  end.

Definition contents_of (out : ListObjectsV2Output) : list S3Object :=
  match Contents out with Some objs => objs | None => [] end.

(** ** Strings: lemmas *)

Lemma split_not_nil sep s : split sep s <> [].
Proof.
  destruct s as [|c s]; simpl; [discriminate|].
  destruct (N.eqb c sep); [discriminate|].
  destruct (split sep s); discriminate.
Qed.

Lemma join_cons sep p q rest :
  join sep (p :: q :: rest) = p ++ sep ++ join sep (q :: rest).
Proof. reflexivity. Qed.

Lemma split_join sep s : join [sep] (split sep s) = s.
Proof.
  induction s as [|c s IH]; simpl; [reflexivity|].
  destruct (N.eqb_spec c sep) as [->|Hne].
  - pose proof (split_not_nil sep s) as Hnil.
    destruct (split sep s) as [|seg rest]; [contradiction|].
    rewrite join_cons, IH. reflexivity.
  - pose proof (split_not_nil sep s) as Hnil.
    destruct (split sep s) as [|seg rest]; [contradiction|].
    destruct rest as [|seg' rest]; rewrite <- IH; reflexivity.
Qed.

Lemma split_no_sep sep s : Forall (fun segment => ~ In sep segment) (split sep s).
Proof.
  induction s as [|c s IH]; simpl.
  - constructor; [intros []|constructor].
  - destruct (N.eqb_spec c sep) as [->|Hne].
    + constructor; [intros []|exact IH].
    + destruct (split sep s) as [|seg rest].
      * constructor; [|constructor]. intros [H|[]]. now apply Hne.
      * inversion IH as [|? ? Hseg Hrest]; subst.
        constructor; [|exact Hrest].
        intros [H|H]; [now apply Hne|now apply Hseg].
Qed.

Lemma trimStart_app_ws x w :
  is_js_whitespace w = true ->
  trimStart (x ++ [w]) = match trimStart x with [] => [] | t => t ++ [w] end.
Proof.
  intros Hw. induction x as [|c x IH]; simpl.
  - now rewrite Hw.
  - destruct (is_js_whitespace c); [exact IH|reflexivity].
Qed.

Lemma trimEnd_app_ws y w :
  is_js_whitespace w = true -> trimEnd (y ++ [w]) = trimEnd y.
Proof.
  intros Hw. unfold trimEnd. rewrite rev_app_distr. simpl. now rewrite Hw.
Qed.

Lemma trim_app_ws x w : is_js_whitespace w = true -> trim (x ++ [w]) = trim x.
Proof.
  intros Hw. unfold trim. rewrite trimStart_app_ws by exact Hw.
  destruct (trimStart x) as [|c t]; [reflexivity|].
  now apply trimEnd_app_ws.
Qed.

Lemma trim_cons_ws w x : is_js_whitespace w = true -> trim (w :: x) = trim x.
Proof. intros Hw. unfold trim. simpl. now rewrite Hw. Qed.

Lemma trimEnd_app_other y c :
  is_js_whitespace c = false -> trimEnd (y ++ [c]) = y ++ [c].
Proof.
  intros Hc. unfold trimEnd. rewrite rev_app_distr. simpl. rewrite Hc.
  simpl. now rewrite rev_involutive.
Qed.

Lemma trim_wrapped (c1 c2 : codeunit) (before inner : jsstring) :
  is_js_whitespace c1 = false -> is_js_whitespace c2 = false ->
  trim ((LF :: c1 :: before) ++ inner ++ [c2] ++ [LF]) = (c1 :: before) ++ inner ++ [c2].
Proof.
  intros H1 H2. unfold trim. cbn [app trimStart].
  change (is_js_whitespace LF) with true. cbv iota. rewrite H1.
  rewrite !app_comm_cons, !app_assoc.
  change [c2; LF] with ([c2] ++ [LF]). rewrite app_assoc.
  rewrite trimEnd_app_ws by reflexivity.
  now rewrite trimEnd_app_other by exact H2.
Qed.

(** [trim] leaves the buffer inside the prompt as it is: the prompt is the
    opening text, the buffer, and the closing text. *)
Lemma buildPrompt_wraps allText :
  buildPrompt allText = PROMPT_OPENING ++ allText ++ PROMPT_CLOSING.
Proof.
  unfold buildPrompt.
  assert (H1 : PROMPT_HEAD = LF :: 89%N :: tl PROMPT_OPENING) by reflexivity.
  assert (H2 : PROMPT_TAIL = removelast PROMPT_CLOSING ++ [62%N] ++ [LF]) by reflexivity.
  assert (H3 : PROMPT_OPENING = 89%N :: tl PROMPT_OPENING) by reflexivity.
  assert (H4 : PROMPT_CLOSING = removelast PROMPT_CLOSING ++ [62%N]) by reflexivity.
  set (opening := tl PROMPT_OPENING) in *.
  set (closing := removelast PROMPT_CLOSING) in *.
  rewrite H1, H2, H3, H4. clearbody opening closing.
  rewrite (app_assoc allText closing).
  rewrite trim_wrapped by reflexivity.
  now rewrite <- !app_assoc.
Qed.

(** The fuel of [decode_loop] is never exhausted. *)

Lemma parse_escape_length s b rest :
  parse_escape s = Some (b, rest) -> length s = 3 + length rest.
Proof.
  destruct s as [|p [|h [|l tl]]]; simpl; try discriminate.
  destruct (N.eqb p PERCENT); [|discriminate].
  destruct (hex_value h); [|discriminate].
  destruct (hex_value l); [|discriminate].
  intros H. inversion H; subst. reflexivity.
Qed.

Lemma continuation_octets_length n : forall s bs rest,
  continuation_octets n s = Some (bs, rest) -> length rest <= length s.
Proof.
  induction n as [|n IH]; intros s bs rest; simpl.
  - intros H. inversion H; subst. lia.
  - destruct (parse_escape s) as [[b rest1]|] eqn:E; [|discriminate].
    destruct (continuation_octets n rest1) as [[bs' rest2]|] eqn:E2; [|discriminate].
    intros H. inversion H; subst.
    apply parse_escape_length in E. apply IH in E2. lia.
Qed.

Lemma decode_loop_fuel : forall fuel1 s fuel2,
  length s <= fuel1 -> length s <= fuel2 -> decode_loop fuel1 s = decode_loop fuel2 s.
Proof.
  induction fuel1 as [|fuel1 IH]; intros s fuel2 H1 H2.
  - destruct s; [|simpl in H1; lia]. destruct fuel2; reflexivity.
  - destruct s as [|c rest]; [destruct fuel2; reflexivity|].
    destruct fuel2 as [|fuel2]; [simpl in H2; lia|].
    simpl in H1, H2. cbn [decode_loop].
    destruct (N.eqb c PERCENT).
    + destruct (parse_escape (c :: rest)) as [[b rest1]|] eqn:E; [|reflexivity].
      apply parse_escape_length in E. simpl in E.
      destruct (b <? 128)%N.
      * f_equal. apply IH; lia.
      * destruct ((leading_ones b =? 1) || (4 <? leading_ones b)); [reflexivity|].
        destruct (continuation_octets (leading_ones b - 1) rest1)
          as [[conts rest2]|] eqn:E2; [|reflexivity].
        apply continuation_octets_length in E2.
        destruct (utf8_code_point b conts); [|reflexivity].
        f_equal. apply IH; lia.
    + f_equal. apply IH; lia.
Qed.

Lemma decodeURIComponent_fuel s fuel :
  length s <= fuel -> decode_loop fuel s = decodeURIComponent s.
Proof. intros H. unfold decodeURIComponent. now apply decode_loop_fuel. Qed.

Lemma read_digits_uint d acc :
  read_digits acc (str (NilEmpty.string_of_uint d))
  = Some (acc * 10 ^ DecimalPos.Unsigned.usize d
          + DecimalPos.Unsigned.of_lu (Decimal.rev d))%N.
Proof.
  revert acc.
  induction d; intros acc; simpl DecimalPos.Unsigned.usize;
    [ simpl; f_equal; lia | .. ];
    unfold Decimal.rev; simpl Decimal.revapp;
    rewrite DecimalPos.Unsigned.of_lu_revapp;
    cbn [NilEmpty.string_of_uint str list_ascii_of_string map read_digits];
    change (is_digit (N_of_ascii _)) with true; cbv iota;
    rewrite IHd; f_equal;
    rewrite N.pow_succ_r';
    simpl DecimalPos.Unsigned.of_lu; simpl N_of_ascii; unfold Decimal.rev;
    match goal with
    | |- context [(?a - 48)%N] =>
        let v := eval compute in (a - 48)%N in change (a - 48)%N with v
    end; ring.
Qed.

Lemma read_decimal_number_toString n : read_decimal (number_toString n) = Some n.
Proof.
  unfold number_toString, read_decimal.
  assert (Hnil : N.to_uint n <> Decimal.Nil).
  { destruct n; [discriminate|]. apply DecimalPos.Unsigned.to_uint_nonnil. }
  destruct (str (NilEmpty.string_of_uint (N.to_uint n))) eqn:E.
  - destruct (N.to_uint n); try contradiction; discriminate.
  - rewrite <- E, read_digits_uint, N.mul_0_l, N.add_0_l.
    rewrite <- DecimalPos.Unsigned.of_uint_alt.
    change (Pos.of_uint (N.to_uint n)) with (N.of_uint (N.to_uint n)).
    now rewrite DecimalN.Unsigned.of_to.
Qed.

(** ** The helpers: grouping key, truncation, subject *)

(** C3: splitting a key on the slash gives back the key when the segments
    are joined with slashes, and no segment holds a slash; when the key has
    at least three segments, the grouping key [runOf] derives is the second
    segment; when it has fewer than three, no grouping key is derived. *)
Theorem C3_runOf_second_segment : forall key : jsstring,
  join [SLASH] (split SLASH key) = key /\
  Forall (fun segment => ~ In SLASH segment) (split SLASH key) /\
  match split SLASH key with
  | _ :: second :: _ :: _ => runOf key = Some second
  | _ => runOf key = None
  end.
Proof.
  intros key. split; [apply split_join|]. split; [apply split_no_sep|].
  unfold runOf.
  destruct (split SLASH key) as [|first [|second [|third rest]]]; reflexivity.
Qed.

(** C4: [truncate] is [truncate_at] with the ceiling of 60000 characters;
    for a text longer than the ceiling the result is the prefix of exactly
    that many characters followed by the marker, whose number reads back as
    the length of the text minus the ceiling; for a text at or under the
    ceiling the result is the text. *)
Theorem C4_truncate_exact : forall (max : nat) (s : jsstring),
  truncate s = truncate_at (N.to_nat 60000) s /\
  (max < length s ->
   truncate_at max s = firstn max s ++ omission_marker (length s - max) /\
   length (firstn max s) = max /\
   omission_marker (length s - max)
   = (LF :: str "...[truncated ")
       ++ number_toString (N.of_nat (length s - max)) ++ str " chars]" /\
   read_decimal (number_toString (N.of_nat (length s - max)))
   = Some (N.of_nat (length s - max))) /\
  (length s <= max -> truncate_at max s = s).
Proof.
  intros max s. split; [reflexivity|]. unfold truncate_at. split.
  - intros Hlong. apply Nat.ltb_lt in Hlong as Hb. rewrite Hb.
    repeat split.
    + apply firstn_length_le. lia.
    + apply read_decimal_number_toString.
  - intros Hshort. apply Nat.ltb_ge in Hshort as Hb. now rewrite Hb.
Qed.

Lemma C4_truncate_exact_witness :
  let long := repeat 120%N (N.to_nat 60002) in
  truncate long = firstn TRUNCATE_MAX long ++ omission_marker (length long - TRUNCATE_MAX)
  /\ truncate (str "ok") = str "ok".
Proof.
  intros long. split.
  - destruct (C4_truncate_exact TRUNCATE_MAX long) as (Hdef & Hlong & _).
    rewrite Hdef. apply Hlong. apply Nat.ltb_lt. vm_compute. reflexivity.
  - destruct (C4_truncate_exact TRUNCATE_MAX (str "ok")) as (Hdef & _ & Hshort).
    rewrite Hdef. apply Hshort. apply Nat.leb_le. vm_compute. reflexivity.
Defined.

Lemma subject_of_spec_subject (prefix : jsstring) (run : option jsstring) :
  subject_of prefix run = spec_subject prefix (group_of run).
Proof.
  unfold subject_of, spec_subject.
  assert (Hsp : is_js_whitespace SPACE = true) by reflexivity.
  destruct prefix as [|p ps]; destruct run as [[|c r]|]; cbn [truthy_string group_of].
  - reflexivity.
  - cbn [app]. change (str " " ++ ?x) with (SPACE :: x).
    rewrite trim_cons_ws by exact Hsp. reflexivity.
  - reflexivity.
  - rewrite app_nil_r.
    change (str "CI Report ") with (str "CI Report" ++ [SPACE]).
    rewrite !app_assoc. rewrite trim_app_ws by exact Hsp. now rewrite app_nil_r.
  - rewrite <- !app_assoc. reflexivity.
  - rewrite app_nil_r.
    change (str "CI Report ") with (str "CI Report" ++ [SPACE]).
    rewrite !app_assoc. rewrite trim_app_ws by exact Hsp. now rewrite app_nil_r.
Qed.

(** C5: for every prefix and every run, the subject of the mail is the one
    the specification words: the prefix, then [CI Report], then a dash and
    the group when there is one, trimmed (a run that is [null] or empty
    names no group); with prefix [[CI]] and group [vpc] it is
    [[CI] CI Report - vpc], with neither it is [CI Report]. *)
Theorem C5_subject_format : forall (prefix : jsstring) (run : option jsstring),
  subject_of prefix run = spec_subject prefix (group_of run) /\
  subject_of (str "[CI]") (Some (str "vpc")) = str "[CI] CI Report - vpc" /\
  subject_of [] None = str "CI Report".
Proof.
  intros prefix run. split; [apply subject_of_spec_subject|split; reflexivity].
Qed.

(** ** The monad: inversion and trace lemmas *)

Section MonadLemmas.

Context {W : Type}.

Lemma bind_ok_inv {A B} (m : M W A) (k : A -> M W B) st b st' :
  bind m k st = (Ok b, st') ->
  exists a st1, m st = (Ok a, st1) /\ k a st1 = (Ok b, st').
Proof.
  unfold bind. destruct (m st) as [[a|e] st1]; intros H; [eauto|discriminate].
Qed.

Lemma bind_ok {A B} (m : M W A) (k : A -> M W B) st a st1 :
  m st = (Ok a, st1) -> bind m k st = k a st1.
Proof. unfold bind. now intros ->. Qed.

Lemma bind_throw {A B} (m : M W A) (k : A -> M W B) st e st1 :
  m st = (Throw e, st1) -> bind m k st = (Throw e, st1).
Proof. unfold bind. now intros ->. Qed.

Lemma bind_lift_ok {A B} (a : A) (k : A -> M W B) : bind (lift (Ok a)) k = k a.
Proof. reflexivity. Qed.

Lemma lift_ok_inv {A} (r : Result A) (st : State W) a st' :
  lift r st = (Ok a, st') -> r = Ok a /\ st' = st.
Proof. unfold lift. intros H. inversion H. auto. Qed.

Lemma request_ok_inv {A} c (answer : W -> Result A * W) st a st' :
  request c answer st = (Ok a, st') ->
  exists w', answer (world st) = (Ok a, w')
             /\ st' = {| world := w'; calls := calls st ++ [c] |}.
Proof.
  unfold request. destruct (answer (world st)) as [r w'].
  intros H. inversion H; subst. eauto.
Qed.

Lemma request_calls {A} c (answer : W -> Result A * W) st :
  calls (snd (request c answer st)) = calls st ++ [c].
Proof. unfold request. now destruct (answer (world st)). Qed.

(** A computation only adds requests to the trace, and the requests it
    adds satisfy [P]. *)
Definition issues {A} (P : Call -> Prop) (m : M W A) : Prop :=
  forall st, exists new, calls (snd (m st)) = calls st ++ new /\ Forall P new.

Lemma issues_ret {A} P (a : A) : issues P (ret a).
Proof. intros st. exists []. now rewrite app_nil_r. Qed.

Lemma issues_lift {A} P (r : Result A) : issues P (lift r).
Proof. intros st. exists []. now rewrite app_nil_r. Qed.

Lemma issues_request {A} (P : Call -> Prop) c (answer : W -> Result A * W) :
  P c -> issues P (request c answer).
Proof. intros Hc st. exists [c]. rewrite request_calls. auto. Qed.

Lemma issues_bind {A B} P (m : M W A) (k : A -> M W B) :
  issues P m -> (forall a, issues P (k a)) -> issues P (bind m k).
Proof.
  intros Hm Hk st. unfold bind.
  destruct (Hm st) as (new1 & E1 & F1).
  destruct (m st) as [[a|e] st1]; simpl in E1.
  - destruct (Hk a st1) as (new2 & E2 & F2).
    exists (new1 ++ new2). rewrite E2, E1, app_assoc. split; [reflexivity|].
    apply Forall_app; auto.
  - exists new1. auto.
Qed.

Lemma issues_try_catch {A} P (m : M W A) (h : JSError -> M W A) :
  issues P m -> (forall e, issues P (h e)) -> issues P (try_catch m h).
Proof.
  intros Hm Hh st. unfold try_catch.
  destruct (Hm st) as (new1 & E1 & F1).
  destruct (m st) as [[a|e] st1]; simpl in E1.
  - exists new1. auto.
  - destruct (Hh e st1) as (new2 & E2 & F2).
    exists (new1 ++ new2). rewrite E2, E1, app_assoc. split; [reflexivity|].
    apply Forall_app; auto.
Qed.

Lemma issues_for_each {A} P (f : A -> M W unit) xs :
  (forall x, issues P (f x)) -> issues P (for_each f xs).
Proof.
  intros Hf. induction xs as [|x rest IH]; simpl.
  - apply issues_ret.
  - apply issues_bind; auto.
Qed.

Lemma for_each_app {A} (f : A -> M W unit) xs ys st :
  for_each f (xs ++ ys) st = bind (for_each f xs) (fun _ => for_each f ys) st.
Proof.
  revert st. induction xs as [|x rest IH]; intros st; simpl; [reflexivity|].
  unfold bind. destruct (f x st) as [[u|e] st1]; [|reflexivity].
  rewrite IH. reflexivity.
Qed.

(** A computation that never throws. *)
Definition total {A} (m : M W A) : Prop :=
  forall st, exists a, fst (m st) = Ok a.

Lemma total_try_catch {A} (m : M W A) (h : JSError -> M W A) :
  (forall e, total (h e)) -> total (try_catch m h).
Proof.
  intros Hh st. unfold try_catch.
  destruct (m st) as [[a|e] st1]; [now exists a|apply Hh].
Qed.

Lemma total_bind {A B} (m : M W A) (k : A -> M W B) :
  total m -> (forall a, total (k a)) -> total (bind m k).
Proof.
  intros Hm Hk st. unfold bind. destruct (Hm st) as (a & Ha).
  destruct (m st) as [[a'|e] st1]; simpl in Ha; [apply Hk|discriminate].
Qed.

End MonadLemmas.

Create HintDb requests.
#[export] Hint Resolve issues_ret issues_lift issues_request : requests.

(** One step through a computation in the proof that it issues only
    requests of some kind. *)
Ltac issues_step :=
  first [ solve [auto with requests]
        | apply issues_bind; [|intro]
        | apply issues_try_catch; [|intro]
        | apply issues_for_each; intro ].

(** ** Joining sections *)

Definition section_of (fetched : jsstring * jsstring) : jsstring :=
  file_section (fst fetched) (truncate (snd fetched)).

Lemma join_app sep (l1 l2 : list jsstring) :
  l1 <> [] -> l2 <> [] -> join sep (l1 ++ l2) = join sep l1 ++ sep ++ join sep l2.
Proof.
  intros H1 H2. induction l1 as [|p l1 IH]; [contradiction|].
  destruct l1 as [|q l1].
  - simpl. destruct l2; [contradiction|reflexivity].
  - change ((p :: q :: l1) ++ l2) with (p :: q :: (l1 ++ l2)).
    rewrite !join_cons. change (q :: l1 ++ l2) with ((q :: l1) ++ l2).
    rewrite IH by discriminate. now rewrite <- !app_assoc.
Qed.

Lemma join_sections_nil (fetched : list (jsstring * jsstring)) :
  join [LF] (map section_of fetched) = [] -> fetched = [].
Proof.
  destruct fetched as [|kt rest]; [reflexivity|].
  simpl. destruct (map section_of rest); discriminate.
Qed.

Lemma join_two (tests sonar : jsstring) (l1 l2 : list (jsstring * jsstring)) :
  tests = join [LF] (map section_of l1) ->
  sonar = join [LF] (map section_of l2) ->
  join [LF] (filter truthy_string [tests; sonar])
  = join [LF] (map section_of (l1 ++ l2)).
Proof.
  intros Ht Hs.
  destruct l1 as [|a l1].
  - simpl in Ht. subst tests. simpl.
    destruct sonar as [|c s] eqn:E; simpl.
    + symmetry in Hs. apply join_sections_nil in Hs. now subst.
    + exact Hs.
  - destruct l2 as [|b l2].
    + simpl in Hs. subst sonar. rewrite app_nil_r.
      destruct tests as [|c t] eqn:E; [|simpl; exact Ht].
      symmetry in Ht. apply join_sections_nil in Ht. discriminate.
    + destruct tests as [|c t] eqn:E1.
      { symmetry in Ht. apply join_sections_nil in Ht. discriminate. }
      destruct sonar as [|d s] eqn:E2.
      { symmetry in Hs. apply join_sections_nil in Hs. discriminate. }
      rewrite map_app, join_app by discriminate.
      cbn [filter truthy_string]. rewrite join_cons. cbn [join].
      now rewrite Ht, Hs.
Qed.

(** ** Aggregation *)

Section Aggregation.

Context {W : Type}.
Variable aws : Services W.
Variable rt : Runtime.
Variable env : Env.

(** The prefixes of line 88 and line 89. *)
Definition tests_prefix (run : jsstring) : jsstring := str "test-results/" ++ run ++ str "/".
Definition sonar_prefix (run : jsstring) : jsstring := str "sonarqube/" ++ run ++ str "/".

(** The two cases in which the aggregation of a record has found nothing
    when it reaches line 92: the record has no grouping key, or both
    listings of its run have completed and given no text.  [st'] is the
    state then. *)
Inductive no_content (run : option jsstring) (st st' : State W) : Prop :=
| no_grouping_key :
    truthy_opt run = false -> st' = st -> no_content run st st'
| empty_listings r st1 :
    run = Some r -> r <> [] ->
    listPrefixText aws rt env (tests_prefix r) st = (Ok [], st1) ->
    listPrefixText aws rt env (sonar_prefix r) st1 = (Ok [], st') ->
    no_content run st st'.

Lemma fetch_listed_ok objs : forall out st out' st',
  fetch_listed aws rt env out objs st = (Ok out', st') ->
  exists fetched : list (jsstring * jsstring),
    map fst fetched = listed_keys objs /\
    out' = out ++ map section_of fetched /\
    calls st' = calls st ++ map (GetObject (BUCKET env)) (listed_keys objs).
Proof.
  induction objs as [|obj rest IH]; intros out st out' st' H; simpl in H.
  - inversion H; subst. exists []. simpl. now rewrite !app_nil_r.
  - simpl. destruct (Key obj) as [[|c k]|]; try (now apply IH).
    apply bind_ok_inv in H as (got & st1 & Hget & H).
    apply bind_ok_inv in H as (text & st2 & Hbody & H).
    apply request_ok_inv in Hget as (w' & _ & ->).
    apply lift_ok_inv in Hbody as (Hbody & ->).
    apply IH in H as (fetched & Hkeys & Hout & Hcalls).
    exists ((c :: k, text) :: fetched). simpl in *.
    rewrite Hkeys, Hout, Hcalls, <- !app_assoc. auto.
Qed.

Lemma listPrefixText_ok prefix st text st' :
  listPrefixText aws rt env prefix st = (Ok text, st') ->
  exists out w1 (fetched : list (jsstring * jsstring)),
    s3_list aws (BUCKET env) prefix (world st) = (Ok out, w1) /\
    map fst fetched = listed_keys (contents_of out) /\
    text = join [LF] (map section_of fetched) /\
    calls st' = calls st ++ ListObjectsV2 (BUCKET env) prefix
                  :: map (GetObject (BUCKET env)) (listed_keys (contents_of out)).
Proof.
  intros H. unfold listPrefixText in H.
  apply bind_ok_inv in H as (out & st1 & Hlist & H).
  apply bind_ok_inv in H as (secs & st2 & Hfetch & H).
  apply request_ok_inv in Hlist as (w1 & Hlist & ->).
  inversion H; subst; clear H.
  apply fetch_listed_ok in Hfetch as (fetched & Hkeys & -> & Hcalls).
  exists out, w1, fetched. simpl in *.
  rewrite Hcalls, <- app_assoc. auto.
Qed.

(** A listing that gives no text has fetched nothing. *)
Lemma listPrefixText_empty prefix st st' :
  listPrefixText aws rt env prefix st = (Ok [], st') ->
  calls st' = calls st ++ [ListObjectsV2 (BUCKET env) prefix].
Proof.
  intros H. apply listPrefixText_ok in H as (out & w1 & fetched & _ & Hk & Ht & Hc).
  symmetry in Ht. apply join_sections_nil in Ht. subst fetched.
  simpl in Hk. now rewrite <- Hk in Hc.
Qed.

(** Lines 93 and 94: the fetch of the triggering object. *)
Definition fetch_triggering (key : jsstring) : M W jsstring :=
  got <- send_GetObject aws env key ;;
  body_text <- lift (bodyToString rt (Body got)) ;;
  ret ((LF :: str "--- FILE: ") ++ key ++ str " ---" ++ [LF] ++ truncate body_text).

Lemma fetch_triggering_calls key st :
  calls (snd (fetch_triggering key st)) = calls st ++ [GetObject (BUCKET env) key].
Proof.
  unfold fetch_triggering, bind, send_GetObject, request, lift.
  destruct (s3_get aws (BUCKET env) key (world st)) as [[got|e] w']; simpl; [|reflexivity].
  destruct (bodyToString rt (Body got)); reflexivity.
Qed.

Lemma fetch_triggering_result key st got w' text :
  s3_get aws (BUCKET env) key (world st) = (Ok got, w') ->
  bodyToString rt (Body got) = Ok text ->
  fst (fetch_triggering key st) = Ok (file_section key (truncate text)).
Proof.
  intros Hget Hbody.
  unfold fetch_triggering, bind, send_GetObject, request, lift.
  now rewrite Hget, Hbody.
Qed.

(** When nothing was found, [collect] is the fetch of the triggering
    object, with its exception caught. *)
Lemma collect_no_content key run st st' :
  no_content run st st' ->
  collect aws rt env key run st = try_catch (fetch_triggering key) (fun _ => ret []) st'.
Proof.
  intros [Hrun -> | r st1 -> Hr Htests Hsonar].
  - unfold collect, try_catch, bind, fetch_triggering.
    destruct run as [[|c r]|]; try discriminate; reflexivity.
  - destruct r as [|c r]; [contradiction|].
    unfold collect, try_catch.
    unfold tests_prefix, sonar_prefix in *.
    erewrite bind_ok with (a := []) (st1 := st'); [reflexivity|].
    erewrite bind_ok by exact Htests. erewrite bind_ok by exact Hsonar.
    reflexivity.
Qed.

Lemma no_content_calls run st st' :
  no_content run st st' ->
  calls st' = calls st
                ++ match group_of run with
                   | Some r => [ListObjectsV2 (BUCKET env) (tests_prefix r);
                                ListObjectsV2 (BUCKET env) (sonar_prefix r)]
                   | None => []
                   end.
Proof.
  intros [Hrun -> | r st1 -> Hr Htests Hsonar].
  - destruct run as [[|c r]|]; try discriminate; simpl; now rewrite app_nil_r.
  - destruct r as [|c r]; [contradiction|]. simpl.
    apply listPrefixText_empty in Htests, Hsonar.
    now rewrite Hsonar, Htests, <- app_assoc.
Qed.

Lemma collect_no_content_calls key run st st' :
  no_content run st st' ->
  calls (snd (collect aws rt env key run st)) = calls st' ++ [GetObject (BUCKET env) key].
Proof.
  intros H. rewrite (collect_no_content key H). unfold try_catch.
  pose proof (fetch_triggering_calls key st') as Hc.
  destruct (fetch_triggering key st') as [[text|e] st2]; exact Hc.
Qed.

Lemma collect_no_content_result key run st st' got w' text :
  no_content run st st' ->
  s3_get aws (BUCKET env) key (world st') = (Ok got, w') ->
  bodyToString rt (Body got) = Ok text ->
  fst (collect aws rt env key run st) = Ok (file_section key (truncate text)).
Proof.
  intros H Hget Hbody. rewrite (collect_no_content key H). unfold try_catch.
  pose proof (fetch_triggering_result key st' Hget Hbody) as Hr.
  destruct (fetch_triggering key st') as [[t|e] st2]; simpl in Hr; [exact Hr|discriminate].
Qed.

(** C6: when a record has no grouping key, or the two listings of its run
    have given no text, the only object fetched is the triggering one: the
    requests of the aggregation are the two listings (none without a
    grouping key) and then one [GetObject] of the key of the record; when
    that fetch answers a body whose text is [text], the buffer is the
    section of the key with the truncated text; and this is the format of
    the sections the loop over a listing pushes. *)
Theorem C6_fallback_to_triggering_object :
  forall (key : jsstring) (run : option jsstring) (st st' : State W),
  no_content run st st' ->
  calls (snd (collect aws rt env key run st))
  = calls st
      ++ match group_of run with
         | Some r => [ListObjectsV2 (BUCKET env) (tests_prefix r);
                      ListObjectsV2 (BUCKET env) (sonar_prefix r)]
         | None => []
         end
      ++ [GetObject (BUCKET env) key] /\
  (forall got w' text,
      s3_get aws (BUCKET env) key (world st') = (Ok got, w') ->
      bodyToString rt (Body got) = Ok text ->
      fst (collect aws rt env key run st) = Ok (file_section key (truncate text))) /\
  (forall objs out st1 out' st2,
      fetch_listed aws rt env out objs st1 = (Ok out', st2) ->
      exists fetched : list (jsstring * jsstring),
        map fst fetched = listed_keys objs /\
        out' = out ++ map (fun kt => file_section (fst kt) (truncate (snd kt))) fetched).
Proof.
  intros key run st st' H. split; [|split].
  - rewrite (collect_no_content_calls key H), (no_content_calls H).
    now rewrite <- app_assoc.
  - intros got w' text. now apply collect_no_content_result.
  - intros objs out st1 out' st2 Hf.
    apply fetch_listed_ok in Hf as (fetched & Hk & Ho & _). now exists fetched.
Qed.

(** C7: when both listings of a run complete and give some text, the
    buffer is the sections of the fetched objects joined by line feeds,
    those of the test-results listing first and those of the sonarqube
    listing after them, each listing in the order of its answer; every
    section opens with the delimiter line that names its key; the objects
    were fetched in that same order. *)
Theorem C7_sections_in_listing_order :
  forall (key run : jsstring) (st st1 st2 : State W) (tests sonar : jsstring),
  run <> [] ->
  listPrefixText aws rt env (tests_prefix run) st = (Ok tests, st1) ->
  listPrefixText aws rt env (sonar_prefix run) st1 = (Ok sonar, st2) ->
  tests <> [] \/ sonar <> [] ->
  exists out1 w1 out2 w2 (fetched1 fetched2 : list (jsstring * jsstring)),
    s3_list aws (BUCKET env) (tests_prefix run) (world st) = (Ok out1, w1) /\
    s3_list aws (BUCKET env) (sonar_prefix run) (world st1) = (Ok out2, w2) /\
    map fst fetched1 = listed_keys (contents_of out1) /\
    map fst fetched2 = listed_keys (contents_of out2) /\
    collect aws rt env key (Some run) st
    = (Ok (join [LF]
             (map (fun kt => (LF :: str "--- FILE: ") ++ fst kt ++ str " ---" ++ [LF]
                               ++ truncate (snd kt))
                  (fetched1 ++ fetched2))), st2) /\
    calls st2
    = calls st
        ++ ListObjectsV2 (BUCKET env) (tests_prefix run)
             :: map (GetObject (BUCKET env)) (map fst fetched1)
        ++ ListObjectsV2 (BUCKET env) (sonar_prefix run)
             :: map (GetObject (BUCKET env)) (map fst fetched2).
Proof.
  intros key run st st1 st2 tests sonar Hrun Htests Hsonar Hsome.
  destruct (listPrefixText_ok _ _ Htests) as (out1 & w1 & f1 & Hl1 & Hk1 & Ht & Hc1).
  destruct (listPrefixText_ok _ _ Hsonar) as (out2 & w2 & f2 & Hl2 & Hk2 & Hs & Hc2).
  exists out1, w1, out2, w2, f1, f2. repeat split; auto.
  - destruct run as [|c r]; [contradiction|].
    unfold collect, try_catch. fold (tests_prefix (c :: r)) (sonar_prefix (c :: r)).
    erewrite bind_ok with (a := join [LF] (map section_of (f1 ++ f2))) (st1 := st2).
    + change (join [LF] (map _ (f1 ++ f2))) with (join [LF] (map section_of (f1 ++ f2))).
      destruct (join [LF] (map section_of (f1 ++ f2))) eqn:E; [|reflexivity].
      apply join_sections_nil in E. apply app_eq_nil in E as [-> ->].
      simpl in Ht, Hs. destruct Hsome; contradiction.
    + erewrite bind_ok by exact Htests. erewrite bind_ok by exact Hsonar.
      unfold ret. now rewrite (join_two _ _ Ht Hs).
  - rewrite Hc2, Hc1, Hk1, Hk2, <- app_assoc. reflexivity.
Qed.

End Aggregation.

(** ** Summary, delivery and the loop over the records *)

Section Invocation.

Context {W : Type}.
Variable aws : Services W.
Variable rt : Runtime.
Variable env : Env.

Definition FAILURE_NOTICE : jsstring :=
  str "Bedrock failed to generate a report." ++ [LF; LF].

(** The buffer the prompt is built over. *)
Definition prompt_buffer (collected : jsstring) : jsstring :=
  match collected with [] => str "(no CI data found)" | _ :: _ => collected end.

(** The summary stage fails, that is, something is thrown inside its
    [try]: the request is rejected, or the body of the answer is not a JSON
    text, or the length of the text read from the answer cannot be
    converted to a string for the log line. *)
Definition generation_fails (collected : jsstring) (st : State W) : Prop :=
  match bedrock_invoke aws (MODEL_ID env)
          (bedrock_request (buildPrompt (prompt_buffer collected))) (world st) with
  | (Throw _, _) => True
  | (Ok resp, _) =>
      match JSON_parse rt (TextDecoder_decode rt (body resp)) with
      | None => True
      | Some decoded => length_unprintable (output_text decoded) = true
      end
  end.

(** The body of the mail for a report. *)
Definition email_body (report : JSValue) : JSValue :=
  if truthy report then report else JStr (str "(empty report)").

(** What every request must satisfy: a mail has a body that is not the
    empty string, a prompt is built over a buffer that is not empty. *)
Definition well_formed_request (c : Call) : Prop :=
  match c with
  | SendEmail _ _ _ bodyText => truthy bodyText = true /\ bodyText <> JStr []
  | InvokeModel _ _ _ req =>
      exists buffer, buffer <> [] /\ req = bedrock_request (buildPrompt buffer)
  | _ => True
  end.

(** [r.s3.object.key] is the string [raw]. *)
Definition has_raw_key (r : JSValue) (raw : jsstring) : Prop :=
  opt_member (opt_member (opt_member (Some r) (str "s3")) (str "object")) (str "key")
  = Some (JStr raw).

Lemma prompt_buffer_eq collected :
  (if truthy_string collected then collected else str "(no CI data found)")
  = prompt_buffer collected.
Proof. now destruct collected. Qed.

Lemma prompt_buffer_not_nil collected : prompt_buffer collected <> [].
Proof. destruct collected; discriminate. Qed.

Lemma email_body_truthy report : truthy (email_body report) = true.
Proof. unfold email_body. destruct (truthy report) eqn:E; [exact E|reflexivity]. Qed.

Lemma email_body_not_empty report : email_body report <> JStr [].
Proof.
  intros H. pose proof (email_body_truthy report) as T. rewrite H in T. discriminate.
Qed.

Lemma opt_member_member v name x :
  opt_member v name = Some x -> member v name = Ok (Some x).
Proof.
  destruct v as [[]|]; simpl; intros H; try discriminate; now rewrite H.
Qed.

Lemma has_raw_key_replaced r raw :
  has_raw_key r raw -> replaced_key r = Ok (replace_plus raw).
Proof.
  unfold has_raw_key, replaced_key. intros H.
  destruct (opt_member (Some r) (str "s3")) as [s3|] eqn:E1; [|discriminate].
  destruct (opt_member (Some s3) (str "object")) as [object|] eqn:E2; [|discriminate].
  rewrite (opt_member_member _ _ E1), (opt_member_member _ _ E2).
  now rewrite (opt_member_member _ _ H).
Qed.

(** *** Requests of the stages *)

Lemma summarize_calls collected st :
  calls (snd (summarize aws rt env collected st))
  = calls st ++ [InvokeModel (MODEL_ID env) (str "application/json")
                             (str "application/json")
                             (bedrock_request (buildPrompt (prompt_buffer collected)))].
Proof.
  unfold summarize, try_catch, bind, request, lift. rewrite prompt_buffer_eq.
  destruct (bedrock_invoke _ _ _ _) as [[resp|e] w']; simpl; [|reflexivity].
  destruct (JSON_parse rt _) as [decoded|]; [|reflexivity].
  destruct (log_chars (output_text decoded)); reflexivity.
Qed.

Lemma deliver_calls run report st :
  calls (snd (deliver aws env run report st))
  = calls st ++ [SendEmail (SENDER env) (RECIPIENTS env)
                           (subject_of (SUBJECT_PREFIX env) run) (email_body report)].
Proof.
  unfold deliver, try_catch, sendEmail, request. fold (email_body report).
  destruct (ses_send _ _ _ _ _ _) as [[u|e] w']; reflexivity.
Qed.

Lemma issues_of_calls {A} (P : Call -> Prop) (m : M W A) (c : Call) :
  (forall st, calls (snd (m st)) = calls st ++ [c]) -> P c -> issues P m.
Proof. intros H Hc st. exists [c]. rewrite H. auto. Qed.

Lemma issues_fetch_listed P objs :
  (forall b k, P (GetObject b k)) ->
  forall out, issues P (fetch_listed aws rt env out objs).
Proof.
  intros HP. induction objs as [|obj rest IH]; intros out; simpl.
  - issues_step.
  - destruct (Key obj) as [[|c k]|]; try apply IH.
    unfold send_GetObject. repeat issues_step.
Qed.

Lemma issues_listPrefixText P prefix :
  (forall b k, P (GetObject b k)) -> (forall b p, P (ListObjectsV2 b p)) ->
  issues P (listPrefixText aws rt env prefix).
Proof.
  intros HG HL. unfold listPrefixText, send_ListObjectsV2.
  repeat issues_step. now apply issues_fetch_listed.
Qed.

Lemma issues_collect P key run :
  (forall b k, P (GetObject b k)) -> (forall b p, P (ListObjectsV2 b p)) ->
  issues P (collect aws rt env key run).
Proof.
  intros HG HL. unfold collect, send_GetObject.
  pose proof (fun prefix => @issues_listPrefixText P prefix HG HL) as Hlist.
  issues_step; [issues_step|issues_step].
  - destruct run as [[|c r]|]; repeat issues_step.
  - destruct (negb (truthy_string _)); repeat issues_step.
Qed.

Lemma issues_process_run key run :
  issues well_formed_request (process_run aws rt env key run).
Proof.
  unfold process_run.
  apply issues_bind; [apply issues_collect; simpl; auto|intros collected].
  apply issues_bind; [|intros report].
  - eapply issues_of_calls; [intros st; apply summarize_calls|].
    exists (prompt_buffer collected). split; [apply prompt_buffer_not_nil|reflexivity].
  - eapply issues_of_calls; [intros st; apply deliver_calls|].
    split; [apply email_body_truthy|apply email_body_not_empty].
Qed.

Lemma issues_handler event :
  issues well_formed_request (handler aws rt env event).
Proof.
  unfold handler. apply issues_bind; [|intros u; apply issues_ret].
  apply issues_for_each. intros rec. unfold process_sns_record.
  apply issues_bind; [apply issues_lift|intros msg].
  apply issues_bind; [apply issues_lift|intros s3Recs].
  apply issues_for_each. intros r. unfold process_record.
  apply issues_bind; [apply issues_lift|intros key]. apply issues_process_run.
Qed.

(** *** No stage of a record throws once its key is decoded *)

Lemma total_collect key run : total (collect aws rt env key run).
Proof. unfold collect. apply total_try_catch. intros e st. now exists []. Qed.

Lemma total_summarize collected : total (summarize aws rt env collected).
Proof. unfold summarize. apply total_try_catch. intros e st. eexists. reflexivity. Qed.

Lemma total_deliver run report : total (deliver aws env run report).
Proof. unfold deliver. apply total_try_catch. intros e st. now exists tt. Qed.

Lemma total_process_run key run : total (process_run aws rt env key run).
Proof.
  unfold process_run.
  apply total_bind; [apply total_collect|intros collected].
  apply total_bind; [apply total_summarize|intros report]. apply total_deliver.
Qed.

Lemma total_for_each {A} (f : A -> M W unit) xs :
  (forall x, In x xs -> total (f x)) -> total (for_each f xs).
Proof.
  induction xs as [|x rest IH]; intros Hf; simpl.
  - intros st. now exists tt.
  - apply total_bind; [apply Hf; now left|intros _].
    apply IH. intros y Hy. apply Hf. now right.
Qed.

(** An SNS record whose decoding does not throw: its message, when it
    has one, is a JSON text, the [Records] of the message can be iterated,
    and every object record has a key that is a well-formed escaped
    string. *)
Definition decodes (rec : SnsRecord) : Prop :=
  exists msg s3Recs,
    parse_message rt rec = Ok msg /\
    iterate_or_empty (opt_member (Some msg) (str "Records")) = Ok s3Recs /\
    forall r, In r s3Recs -> exists key, decoded_key r = Ok key.

Lemma total_process_sns_record rec :
  decodes rec -> total (process_sns_record aws rt env rec).
Proof.
  intros (msg & s3Recs & Hmsg & Hiter & Hkeys).
  unfold process_sns_record. rewrite Hmsg, bind_lift_ok, Hiter, bind_lift_ok.
  apply total_for_each. intros r Hr. destruct (Hkeys r Hr) as (key & Hkey).
  unfold process_record. rewrite Hkey, bind_lift_ok.
  apply total_process_run.
Qed.

(** Whatever the services answer, the handler returns [{ ok: true }] when
    every record of the payload decodes. *)
Lemma handler_completes event st :
  (forall rec, In rec (match Records event with Some recs => recs | None => [] end) ->
               decodes rec) ->
  fst (handler aws rt env event st) = Ok {| ok := true |}.
Proof.
  intros Hdec. unfold handler, bind.
  assert (T : total (for_each (process_sns_record aws rt env)
                       (match Records event with Some recs => recs | None => [] end))).
  { apply total_for_each. intros rec Hin. now apply total_process_sns_record, Hdec. }
  destruct (T st) as (u & Hu).
  destruct (for_each _ _ st) as [[u'|e] st']; simpl in Hu; [reflexivity|discriminate].
Qed.

(** C1: a message that is not a JSON text makes [JSON.parse] throw on
    line 78, outside every [try]: after the records before it have been
    processed, the exception leaves the handler; no request is made for
    that record or for any record after it, and the handler does not
    return [{ ok: true }]. *)
Theorem C1_malformed_message_aborts :
  forall (before : list SnsRecord) (message : jsstring) (after : list SnsRecord)
         (st : State W),
  (forall rec, In rec before -> decodes rec) ->
  truthy_string message = true ->
  JSON_parse rt message = None ->
  handler aws rt env {| Records := Some (before ++ sns message :: after) |} st
  = (Throw SyntaxError, snd (for_each (process_sns_record aws rt env) before st)).
Proof.
  intros before message after st Hdec Hne Hbad.
  destruct message as [|c m]; [discriminate|].
  unfold handler. cbn [Records]. unfold bind at 1. rewrite for_each_app.
  assert (T : total (for_each (process_sns_record aws rt env) before)).
  { apply total_for_each. intros rec Hin. now apply total_process_sns_record, Hdec. }
  destruct (T st) as (u & Hu). unfold bind at 1.
  destruct (for_each _ before st) as [[u'|e] st1]; simpl in Hu; [|discriminate].
  cbn [for_each snd]. unfold bind at 1.
  unfold process_sns_record at 1, parse_message, sns. cbn [Sns Message].
  rewrite Hbad. reflexivity.
Qed.

(** C2: the summary stage never throws.  When something is thrown
    inside its [try] (the request is rejected, the answer is not a JSON
    text, or the length of the text read from the answer cannot be
    converted to a string), the report is the failure notice followed by
    the whole aggregated buffer, or by the placeholder when the buffer is
    empty.  A JSON answer is otherwise no failure, also when it holds no
    [results[0].outputText]: the report is what [output_text] reads from
    it, the empty string when there is no text. *)
Theorem C2_generation_failure_fallback :
  forall (collected : jsstring) (st : State W),
  (exists report, fst (summarize aws rt env collected st) = Ok report) /\
  (generation_fails collected st ->
   fst (summarize aws rt env collected st)
   = Ok (JStr (FAILURE_NOTICE
                 ++ match collected with
                    | [] => str "(no CI data captured)"
                    | _ :: _ => collected
                    end))) /\
  (forall resp w' decoded,
      bedrock_invoke aws (MODEL_ID env)
        (bedrock_request (buildPrompt (prompt_buffer collected))) (world st)
      = (Ok resp, w') ->
      JSON_parse rt (TextDecoder_decode rt (body resp)) = Some decoded ->
      length_unprintable (output_text decoded) = false ->
      fst (summarize aws rt env collected st) = Ok (output_text decoded)) /\
  (forall decoded,
      opt_member (opt_index0 (opt_member (Some decoded) (str "results")))
                 (str "outputText") = None ->
      output_text decoded = JStr [] /\ length_unprintable (output_text decoded) = false).
Proof.
  intros collected st. split; [apply total_summarize|].
  unfold generation_fails, summarize, try_catch, bind, request, lift, log_chars.
  rewrite prompt_buffer_eq. split; [|split].
  - destruct (bedrock_invoke _ _ _ _) as [[resp|e] w']; simpl.
    + destruct (JSON_parse rt _) as [decoded|].
      * intros ->. now destruct collected.
      * intros _. now destruct collected.
    + intros _. now destruct collected.
  - intros resp w' decoded -> -> ->. reflexivity.
  - intros decoded H. unfold output_text. rewrite H. split; reflexivity.
Qed.

(** C8: for an object record whose key is the string [raw], replacing
    the plus signs keeps every other character in place and turns each
    plus into a space; the result is then percent-decoded; when that
    succeeds, all the rest of the processing of the record is a function
    of the decoded key alone, and when it fails the exception is thrown
    before any request is made. *)
Theorem C8_key_is_replaced_then_decoded :
  forall (r : JSValue) (raw : jsstring) (st : State W),
  has_raw_key r raw ->
  length (replace_plus raw) = length raw /\
  (forall i c, nth_error raw i = Some c ->
               nth_error (replace_plus raw) i = Some (if N.eqb c PLUS then SPACE else c)) /\
  decoded_key r = decodeURIComponent (replace_plus raw) /\
  match decodeURIComponent (replace_plus raw) with
  | Ok key => process_record aws rt env r st
              = process_run aws rt env key (runOf key) st
  | Throw e => process_record aws rt env r st = (Throw e, st)
  end.
Proof.
  intros r raw st Hraw.
  assert (Hkey : decoded_key r = decodeURIComponent (replace_plus raw)).
  { unfold decoded_key. now rewrite (has_raw_key_replaced Hraw). }
  repeat split.
  - apply length_map.
  - intros i c Hi. unfold replace_plus. rewrite nth_error_map.
    exact (f_equal (option_map _) Hi).
  - exact Hkey.
  - unfold process_record, bind, lift. rewrite Hkey.
    destruct (decodeURIComponent (replace_plus raw)); reflexivity.
Qed.

(** C9: a key with at least three segments whose second segment is empty
    has the empty string as grouping key, and the record is then processed
    exactly as a record without grouping key: no prefix is listed, the
    only request of the aggregation is the fetch of the triggering object,
    and the subject has no group. *)
Theorem C9_empty_segment_is_no_group :
  forall (key first third : jsstring) (rest : list jsstring) (st : State W),
  split SLASH key = first :: [] :: third :: rest ->
  runOf key = Some [] /\
  process_key aws rt env key st = process_run aws rt env key None st /\
  calls (snd (collect aws rt env key (runOf key) st))
  = calls st ++ [GetObject (BUCKET env) key] /\
  subject_of (SUBJECT_PREFIX env) (runOf key) = spec_subject (SUBJECT_PREFIX env) None.
Proof.
  intros key first third rest st Hsplit.
  assert (Hrun : runOf key = Some []).
  { unfold runOf. now rewrite Hsplit. }
  repeat split.
  - exact Hrun.
  - unfold process_key. now rewrite Hrun.
  - rewrite Hrun. apply collect_no_content_calls. now apply no_grouping_key.
  - rewrite Hrun. apply (subject_of_spec_subject (SUBJECT_PREFIX env) (Some [])).
Qed.

(** C10: every mail the handler sends has a body that is not the empty
    string, and every prompt it submits is built over a buffer that is not
    empty; the body of the mail of a record is its report when the report
    is truthy and [(empty report)] otherwise, and the buffer of the prompt
    is the aggregated buffer, or [(no CI data found)] when that is
    empty. *)
Theorem C10_no_empty_body_no_empty_buffer :
  forall (event : Event) (st : State W),
  (exists new, calls (snd (handler aws rt env event st)) = calls st ++ new
               /\ Forall well_formed_request new) /\
  (forall run report st0,
      calls (snd (deliver aws env run report st0))
      = calls st0
          ++ [SendEmail (SENDER env) (RECIPIENTS env) (subject_of (SUBJECT_PREFIX env) run)
                        (if truthy report then report else JStr (str "(empty report)"))]) /\
  (forall text, email_body (JStr text)
                = JStr (match text with [] => str "(empty report)" | _ :: _ => text end)) /\
  (forall collected st0,
      calls (snd (summarize aws rt env collected st0))
      = calls st0
          ++ [InvokeModel (MODEL_ID env) (str "application/json") (str "application/json")
                (bedrock_request
                   (buildPrompt (match collected with
                                 | [] => str "(no CI data found)"
                                 | _ :: _ => collected
                                 end)))]).
Proof.
  intros event st. repeat split.
  - apply issues_handler.
  - intros run report st0. apply deliver_calls.
  - intros text. now destruct text.
  - intros collected st0. apply summarize_calls.
Qed.

End Invocation.

(** ** The properties on the example deployment *)

Lemma C1_malformed_message_aborts_witness :
  handler (memory_services example_reply) node_runtime example_env
    {| Records := Some [sns (str "not json"); sns unit_xml_message] |}
    (start example_bucket)
  = (Throw SyntaxError, start example_bucket).
Proof.
  apply (@C1_malformed_message_aborts _ (memory_services example_reply) node_runtime
           example_env [] (str "not json") [sns unit_xml_message] (start example_bucket)).
  - intros rec [].
  - reflexivity.
  - vm_compute. reflexivity.
Defined.

(** A key that is not a well-formed escaped string has the same effect:
    [decodeURIComponent] throws on line 81, outside every [try]. *)
Example undecodable_key_aborts :
  handler (memory_services example_reply) node_runtime example_env
    {| Records := Some [sns (json_text "{'Records':[{'s3':{'object':{'key':'coverage-100%.xml'}}}]}");
                        sns unit_xml_message] |}
    (start example_bucket)
  = (Throw URIError, start example_bucket).
Proof. vm_compute. reflexivity. Qed.

(** The test event of the README, on a bucket that holds its object. *)
Example readme_event_is_delivered :
  let result := handler (memory_services example_reply) node_runtime example_env
                  {| Records := Some [sns readme_message] |}
                  (start [(str "test-results/vpc/unit.xml", str "<testsuite/>")]) in
  fst result = Ok {| ok := true |} /\
  map (fun c => match c with
                | ListObjectsV2 _ prefix => prefix
                | GetObject _ key => key
                | InvokeModel modelId _ _ _ => modelId
                | SendEmail _ _ subject _ => subject
                end) (calls (snd result))
  = [str "test-results/vpc/"; str "test-results/vpc/unit.xml"; str "sonarqube/vpc/";
     str "amazon.titan-text-express-v1"; str "[CI] CI Report - vpc"].
Proof. vm_compute. split; reflexivity. Qed.

(** The same payload without the malformed record: the record is
    processed, one mail is sent and the handler returns [{ ok: true }]. *)
Example valid_record_alone_is_delivered :
  let result := handler (memory_services example_reply) node_runtime example_env
                  {| Records := Some [sns unit_xml_message] |} (start example_bucket) in
  fst result = Ok {| ok := true |} /\
  filter (fun c => match c with SendEmail _ _ _ _ => true | _ => false end)
         (calls (snd result))
  = [SendEmail (Some (str "ci@example.com"))
               [str "dev@example.com"; str "qa@example.com"]
               (str "[CI] CI Report - run1") (JStr (str "All green."))].
Proof. vm_compute. split; reflexivity. Qed.

Lemma C2_generation_failure_fallback_witness :
  fst (summarize (memory_services refused_reply) node_runtime example_env
         (str "raw data") (start example_bucket))
  = Ok (JStr (FAILURE_NOTICE ++ str "raw data"))
  /\ fst (summarize (memory_services garbled_reply) node_runtime example_env
            [] (start example_bucket))
     = Ok (JStr (FAILURE_NOTICE ++ str "(no CI data captured)"))
  /\ fst (summarize (memory_services unprintable_reply) node_runtime example_env
            (str "raw data") (start example_bucket))
     = Ok (JStr (FAILURE_NOTICE ++ str "raw data")).
Proof.
  split; [|split].
  - apply (proj1 (proj2 (C2_generation_failure_fallback
                           (memory_services refused_reply) node_runtime
                           example_env (str "raw data") (start example_bucket)))).
    vm_compute. exact I.
  - apply (proj1 (proj2 (C2_generation_failure_fallback
                           (memory_services garbled_reply) node_runtime
                           example_env [] (start example_bucket)))).
    vm_compute. exact I.
  - apply (proj1 (proj2 (C2_generation_failure_fallback
                           (memory_services unprintable_reply) node_runtime
                           example_env (str "raw data") (start example_bucket)))).
    vm_compute. reflexivity.
Defined.

(** A response that is malformed without being a failure for the code: a
    JSON document with no [results].  Nothing is thrown inside the [try];
    the report is the empty string, not the failure notice followed by the
    buffer, and the mail is sent with the body [(empty report)]. *)
Lemma C2_answer_without_results_is_no_failure :
  fst (summarize (memory_services error_document_reply) node_runtime example_env
         (str "raw data") (start example_bucket))
  = Ok (JStr [])
  /\ fst (summarize (memory_services error_document_reply) node_runtime example_env
            (str "raw data") (start example_bucket))
     <> Ok (JStr (FAILURE_NOTICE ++ str "raw data"))
  /\ calls (snd (process_run (memory_services error_document_reply) node_runtime
                   example_env (str "notes.txt") None (start example_bucket)))
     = [GetObject (Some (str "B")) (str "notes.txt");
        InvokeModel (str "amazon.titan-text-express-v1") (str "application/json")
          (str "application/json")
          (bedrock_request (buildPrompt (file_section (str "notes.txt") (str "hello"))));
        SendEmail (Some (str "ci@example.com")) [str "dev@example.com"; str "qa@example.com"]
          (str "[CI] CI Report") (JStr (str "(empty report)"))].
Proof.
  split; [vm_compute; reflexivity|]. split; [vm_compute; discriminate|].
  vm_compute. reflexivity.
Qed.

Lemma C6_fallback_to_triggering_object_witness :
  calls (snd (collect (memory_services example_reply) node_runtime example_env
                (str "notes.txt") None (start example_bucket)))
  = [GetObject (Some (str "B")) (str "notes.txt")]
  /\ calls (snd (collect (memory_services example_reply) node_runtime example_env
                   (str "test-results/run9/unit.xml") (Some (str "run9"))
                   (start example_bucket)))
     = [ListObjectsV2 (Some (str "B")) (str "test-results/run9/");
        ListObjectsV2 (Some (str "B")) (str "sonarqube/run9/");
        GetObject (Some (str "B")) (str "test-results/run9/unit.xml")].
Proof.
  split.
  - apply (@C6_fallback_to_triggering_object _ (memory_services example_reply)
             node_runtime example_env (str "notes.txt") None
             (start example_bucket) (start example_bucket)).
    apply no_grouping_key; reflexivity.
  - eapply (@C6_fallback_to_triggering_object _ (memory_services example_reply)
              node_runtime example_env (str "test-results/run9/unit.xml")
              (Some (str "run9")) (start example_bucket)).
    eapply empty_listings.
    + reflexivity.
    + discriminate.
    + vm_compute. reflexivity.
    + vm_compute. reflexivity.
Defined.

Lemma C7_sections_in_listing_order_witness :
  let aws := memory_services example_reply in
  let st := start example_bucket in
  let listed1 := listPrefixText aws node_runtime example_env (tests_prefix (str "run1")) st in
  let listed2 := listPrefixText aws node_runtime example_env (sonar_prefix (str "run1"))
                   (snd listed1) in
  exists fetched1 fetched2 : list (jsstring * jsstring),
    map fst fetched1 = [str "test-results/run1/unit.xml"; str "test-results/run1/e2e.xml"] /\
    map fst fetched2 = [str "sonarqube/run1/scan.log"] /\
    collect aws node_runtime example_env (str "test-results/run1/unit.xml")
            (Some (str "run1")) st
    = (Ok (join [LF] (map section_of (fetched1 ++ fetched2))), snd listed2).
Proof.
  intros aws st listed1 listed2.
  destruct (@C7_sections_in_listing_order _ aws node_runtime example_env
              (str "test-results/run1/unit.xml") (str "run1") st (snd listed1) (snd listed2)
              (match fst listed1 with Ok t => t | Throw _ => [] end)
              (match fst listed2 with Ok t => t | Throw _ => [] end))
    as (out1 & w1 & out2 & w2 & f1 & f2 & H1 & H2 & K1 & K2 & Hc & _).
  - discriminate.
  - vm_compute. reflexivity.
  - vm_compute. reflexivity.
  - left. vm_compute. discriminate.
  - exists f1, f2. split; [|split].
    + rewrite K1. vm_compute in H1. inversion H1. reflexivity.
    + rewrite K2. vm_compute in H2. inversion H2. reflexivity.
    + exact Hc.
Defined.

Lemma C8_key_is_replaced_then_decoded_witness :
  decoded_key (object_record (str "test-results/my+run/a%2Bb.xml"))
  = Ok (str "test-results/my run/a+b.xml")
  /\ process_record (memory_services example_reply) node_runtime example_env
       (object_record (str "test-results/my+run/a%2Bb.xml")) (start example_bucket)
     = process_run (memory_services example_reply) node_runtime example_env
         (str "test-results/my run/a+b.xml") (Some (str "my run")) (start example_bucket).
Proof.
  destruct (@C8_key_is_replaced_then_decoded _ (memory_services example_reply)
              node_runtime example_env
              (object_record (str "test-results/my+run/a%2Bb.xml"))
              (str "test-results/my+run/a%2Bb.xml") (start example_bucket))
    as (_ & _ & Hkey & Hrec).
  - reflexivity.
  - split; [exact Hkey|exact Hrec].
Defined.

Lemma C9_empty_segment_is_no_group_witness :
  runOf (str "a//b") = Some [] /\
  calls (snd (collect (memory_services example_reply) node_runtime example_env
                (str "a//b") (runOf (str "a//b")) (start example_bucket)))
  = [GetObject (Some (str "B")) (str "a//b")] /\
  subject_of (str "[CI]") (runOf (str "a//b")) = str "[CI] CI Report".
Proof.
  destruct (@C9_empty_segment_is_no_group _ (memory_services example_reply)
              node_runtime example_env (str "a//b") (str "a") (str "b") []
              (start example_bucket))
    as (Hrun & _ & Hcalls & Hsubject).
  - reflexivity.
  - split; [exact Hrun|]. split; [exact Hcalls|exact Hsubject].
Defined.

(** * Further properties of index.js *)

(** ** Strings: more lemmas *)



Lemma number_toString_not_nil n : number_toString n <> [].
Proof.
  intros H. pose proof (read_decimal_number_toString n) as R.
  rewrite H in R. discriminate.
Qed.

Lemma trimStart_app_other x c z :
  is_js_whitespace c = false -> trimStart (x ++ c :: z) = trimStart x ++ c :: z.
Proof.
  intros Hc. induction x as [|d x IH]; simpl.
  - now rewrite Hc.
  - destruct (is_js_whitespace d); [exact IH|reflexivity].
Qed.

Lemma trimEnd_app_other_gen z d y :
  is_js_whitespace d = false -> trimEnd (z ++ d :: y) = z ++ d :: trimEnd y.
Proof.
  intros Hd. unfold trimEnd. rewrite rev_app_distr. simpl rev.
  rewrite <- app_assoc. simpl app.
  rewrite trimStart_app_other by exact Hd.
  rewrite rev_app_distr. simpl rev. rewrite rev_involutive.
  now rewrite <- app_assoc.
Qed.

Lemma trimEnd_cons_other c t :
  is_js_whitespace c = false -> trimEnd (c :: t) = c :: trimEnd t.
Proof. intros H. exact (@trimEnd_app_other_gen [] c t H). Qed.

Lemma trimStart_head s c t : trimStart s = c :: t -> is_js_whitespace c = false.
Proof.
  induction s as [|d s IH]; simpl; [discriminate|].
  destruct (is_js_whitespace d) eqn:E; [exact IH|].
  intros H. inversion H; subst. exact E.
Qed.

Lemma trimStart_idem s : trimStart (trimStart s) = trimStart s.
Proof.
  destruct (trimStart s) as [|c t] eqn:E; [reflexivity|].
  simpl. now rewrite (@trimStart_head s c t E).
Qed.

Lemma trimEnd_idem s : trimEnd (trimEnd s) = trimEnd s.
Proof. unfold trimEnd. now rewrite rev_involutive, trimStart_idem. Qed.

Lemma trim_idem s : trim (trim s) = trim s.
Proof.
  unfold trim. destruct (trimStart s) as [|c t] eqn:E; [reflexivity|].
  pose proof (@trimStart_head s c t E) as Hc.
  rewrite trimEnd_cons_other by exact Hc. simpl. rewrite Hc.
  rewrite trimEnd_cons_other by exact Hc. now rewrite trimEnd_idem.
Qed.

Lemma trimStart_In x s : In x (trimStart s) -> In x s.
Proof.
  induction s as [|c s IH]; simpl; [auto|].
  destruct (is_js_whitespace c); [intros H; right; auto|auto].
Qed.

Lemma trim_In x s : In x (trim s) -> In x s.
Proof.
  unfold trim, trimEnd. intros H. apply in_rev in H.
  apply trimStart_In in H. apply in_rev in H. now apply trimStart_In.
Qed.

Lemma decode_loop_no_percent s : forall fuel,
  ~ In PERCENT s -> length s <= fuel -> decode_loop fuel s = Ok s.
Proof.
  induction s as [|c s IH]; intros fuel Hno Hlen.
  - destruct fuel; reflexivity.
  - destruct fuel as [|fuel]; [simpl in Hlen; lia|]. cbn [decode_loop].
    destruct (N.eqb_spec c PERCENT) as [->|Hne].
    + exfalso. apply Hno. now left.
    + rewrite IH; [reflexivity| |simpl in Hlen; lia].
      intros Hin. apply Hno. now right.
Qed.

Lemma parse_escape_before_stray a b o rest :
  parse_escape (PERCENT :: b) = None ->
  parse_escape (a ++ PERCENT :: b) = Some (o, rest) ->
  exists a', rest = a' ++ PERCENT :: b /\ length a = 3 + length a'.
Proof.
  intros Hbad H. destruct a as [|p [|h [|l a']]].
  - cbn [app] in H. congruence.
  - exfalso. destruct b as [|l b]; simpl in H; [discriminate|].
    destruct (N.eqb p PERCENT); [|discriminate].
    change (hex_value PERCENT) with (@None N) in H. discriminate.
  - exfalso. simpl in H. destruct (N.eqb p PERCENT); [|discriminate].
    change (hex_value PERCENT) with (@None N) in H.
    destruct (hex_value h); discriminate.
  - simpl in H. destruct (N.eqb p PERCENT); [|discriminate].
    destruct (hex_value h); [|discriminate]. destruct (hex_value l); [|discriminate].
    inversion H; subst. exists a'. split; reflexivity.
Qed.

Lemma continuation_before_stray n : forall a b conts rest,
  parse_escape (PERCENT :: b) = None ->
  continuation_octets n (a ++ PERCENT :: b) = Some (conts, rest) ->
  exists a', rest = a' ++ PERCENT :: b /\ length a' <= length a.
Proof.
  induction n as [|n IH]; intros a b conts rest Hbad H; simpl in H.
  - inversion H; subst. exists a. split; [reflexivity|lia].
  - destruct (parse_escape (a ++ PERCENT :: b)) as [[o rest1]|] eqn:E; [|discriminate].
    apply (parse_escape_before_stray _ _ Hbad) in E as (a1 & -> & Hlen).
    destruct (continuation_octets n (a1 ++ PERCENT :: b)) as [[bs rest2]|] eqn:E2;
      [|discriminate].
    inversion H; subst.
    apply (IH _ _ _ _ Hbad) in E2 as (a2 & -> & Hle).
    exists a2. split; [reflexivity|lia].
Qed.

(** A percent sign that opens no escape makes the loop of Decode throw,
    whatever comes before it. *)
Lemma decode_loop_stray_percent : forall fuel a b,
  parse_escape (PERCENT :: b) = None ->
  length (a ++ PERCENT :: b) <= fuel ->
  decode_loop fuel (a ++ PERCENT :: b) = Throw URIError.
Proof.
  induction fuel as [|fuel IH]; intros a b Hbad Hlen.
  - destruct a; reflexivity.
  - destruct a as [|c a'].
    + cbn [app decode_loop]. rewrite N.eqb_refl. now rewrite Hbad.
    + rewrite length_app in Hlen. cbn [app decode_loop].
      destruct (N.eqb_spec c PERCENT) as [->|Hne].
      * destruct (parse_escape (PERCENT :: a' ++ PERCENT :: b)) as [[o rest1]|] eqn:E;
          [|reflexivity].
        apply (parse_escape_before_stray (PERCENT :: a') b Hbad) in E as (a1 & -> & Hl1).
        simpl in Hl1, Hlen.
        destruct (o <? 128)%N.
        -- rewrite IH; [reflexivity|exact Hbad|rewrite length_app; simpl; lia].
        -- destruct ((leading_ones o =? 1) || (4 <? leading_ones o)); [reflexivity|].
           destruct (continuation_octets (leading_ones o - 1) (a1 ++ PERCENT :: b))
             as [[conts rest2]|] eqn:E2; [|reflexivity].
           apply (continuation_before_stray _ _ _ Hbad) in E2 as (a2 & -> & Hl2).
           destruct (utf8_code_point o conts); [|reflexivity].
           rewrite IH; [reflexivity|exact Hbad|rewrite length_app; simpl; lia].
      * simpl in Hlen.
        rewrite IH; [reflexivity|exact Hbad|rewrite length_app; simpl; lia].
Qed.

Lemma replace_plus_no_percent raw : ~ In PERCENT raw -> ~ In PERCENT (replace_plus raw).
Proof.
  unfold replace_plus. intros Hno Hin. apply in_map_iff in Hin as (c & Hc & Hin).
  destruct (N.eqb c PLUS); [discriminate|]. subst. contradiction.
Qed.

(** ** The helpers and the configuration *)



(** X2: [truncate] keeps the first [max] characters of the text; a text
    cut at [max] comes out longer than [max], by the 22 characters of the
    marker and the digits of its number, so the result is longer than the
    ceiling exactly when the text was. *)
Theorem X2_truncate_length : forall (max : nat) (s : jsstring),
  firstn max (truncate_at max s) = firstn max s /\
  (max < length s ->
   length (truncate_at max s)
   = max + 22 + length (number_toString (N.of_nat (length s - max)))) /\
  (max < length (truncate_at max s) <-> max < length s).
Proof.
  intros max s.
  assert (Hlong : max < length s ->
                  length (truncate_at max s)
                  = max + 22 + length (number_toString (N.of_nat (length s - max)))).
  { intros H. unfold truncate_at. apply Nat.ltb_lt in H as Hb. rewrite Hb.
    rewrite !length_app, firstn_length_le by lia. cbn [length]. 
    change (length (str "...[truncated ")) with 14.
    change (length (str " chars]")) with 7. lia. }
  split; [|split; [exact Hlong|]].
  - unfold truncate_at. destruct (max <? length s) eqn:Hb; [|reflexivity].
    apply Nat.ltb_lt in Hb.
    rewrite firstn_app, firstn_firstn, Nat.min_id, firstn_length_le by lia.
    rewrite Nat.sub_diag. simpl. now rewrite app_nil_r.
  - split; intros H.
    + destruct (Nat.ltb_spec max (length s)) as [Hlt|Hge]; [exact Hlt|].
      unfold truncate_at in H. apply Nat.ltb_ge in Hge as Hb. rewrite Hb in H. lia.
    + rewrite (Hlong H). lia.
Qed.

(** X3: every recipient the handler mails is a non-empty address without
    comma and without white space around it; with [RECIPIENT_EMAILS] unset
    or empty there is no recipient. *)
Theorem X3_recipients_are_clean : forall env : Env,
  Forall (fun r => r <> [] /\ trim r = r /\ ~ In COMMA r) (RECIPIENTS env) /\
  (truthy_opt (RECIPIENT_EMAILS env) = false -> RECIPIENTS env = []).
Proof.
  intros env. split.
  - apply Forall_forall. intros r Hin. unfold RECIPIENTS in Hin.
    apply filter_In in Hin as (Hin & Htruthy).
    apply in_map_iff in Hin as (seg & <- & Hseg).
    repeat split.
    + intros H. rewrite H in Htruthy. discriminate.
    + apply trim_idem.
    + intros Hc. apply trim_In in Hc.
      pose proof (split_no_sep COMMA (or_default (RECIPIENT_EMAILS env) [])) as Hno.
      rewrite Forall_forall in Hno. exact (Hno seg Hseg Hc).
  - unfold RECIPIENTS. destruct (RECIPIENT_EMAILS env) as [[|c s]|]; simpl;
      try discriminate; reflexivity.
Qed.

Lemma X3_recipients_are_clean_witness :
  RECIPIENTS {| ARTIFACT_BUCKET := None; RECIPIENT_EMAILS := Some [];
                SENDER_EMAIL := None; EMAIL_SUBJECT_PREFIX := None;
                BEDROCK_MODEL_ID := None |} = [].
Proof.
  apply (proj2 (X3_recipients_are_clean _)). reflexivity.
Defined.

(** X4: the prompt is the opening text of the template, the buffer
    untouched, and the closing text; so its length is the length of the
    buffer plus a constant, and two buffers with the same prompt are the
    same buffer. *)
Theorem X4_buildPrompt_embeds_buffer : forall a b : jsstring,
  buildPrompt a = PROMPT_OPENING ++ a ++ PROMPT_CLOSING /\
  length (buildPrompt a) = length a + length (buildPrompt []) /\
  (buildPrompt a = buildPrompt b -> a = b).
Proof.
  intros a b. split; [apply buildPrompt_wraps|]. split.
  - rewrite !buildPrompt_wraps, !length_app. simpl. lia.
  - rewrite !buildPrompt_wraps. intros H.
    apply app_inv_head in H. now apply app_inv_tail in H.
Qed.

(** X6: the subject is never empty: it holds the label [CI Report], and
    it has no white space left at either end. *)
Theorem X6_subject_is_trimmed_and_labelled :
  forall (prefix : jsstring) (run : option jsstring),
  trim (subject_of prefix run) = subject_of prefix run /\
  exists before after, subject_of prefix run = before ++ str "CI Report" ++ after.
Proof.
  intros prefix run. split; [apply trim_idem|].
  unfold subject_of.
  set (p := if truthy_string prefix then prefix ++ str " " else []).
  set (g := match run with Some (c :: r) => str "- " ++ c :: r | _ => [] end).
  exists (trimStart p), (trimEnd (SPACE :: g)).
  transitivity (trim (p ++ 67%N :: (str "I Repor" ++ 116%N :: SPACE :: g)));
    [reflexivity|].
  unfold trim. rewrite trimStart_app_other by reflexivity.
  rewrite app_comm_cons, app_assoc.
  rewrite trimEnd_app_other_gen by reflexivity.
  rewrite <- app_assoc. reflexivity.
Qed.

(** ** Decoding of the payload: what is skipped, what aborts *)

(** [rec.Sns?.Message]. *)
Definition message_of (rec : SnsRecord) : option jsstring :=
  match Sns rec with Some m => Message m | None => None end.

(** The message names no object record: it has no [Records], or a falsy
    one, or an empty array. *)
Definition no_object_records (msg : JSValue) : Prop :=
  match opt_member (Some msg) (str "Records") with
  | None => True
  | Some v => truthy v = false \/ v = JArr []
  end.

(** The object records of an SNS record that decodes. *)
Definition object_records (rt : Runtime) (rec : SnsRecord) : list JSValue :=
  match parse_message rt rec with
  | Ok msg =>
      match iterate_or_empty (opt_member (Some msg) (str "Records")) with
      | Ok s3Recs => s3Recs
      | Throw _ => []
      end
  | Throw _ => []
  end.

(** The S3 requests. *)
Definition is_s3_request (c : Call) : Prop :=
  match c with
  | ListObjectsV2 _ _ | GetObject _ _ => True
  | _ => False
  end.

Definition is_SendEmail (c : Call) : bool :=
  match c with SendEmail _ _ _ _ => true | _ => false end.

Definition is_InvokeModel (c : Call) : bool :=
  match c with InvokeModel _ _ _ _ => true | _ => false end.

(** A deployment whose bucket refuses the prefixes and keys that [broken]
    selects, and is the bucket in memory for the others. *)
Definition broken_services (broken : jsstring -> bool) (reply : Result InvokeModelOutput)
  : Services (list (jsstring * jsstring)) :=
  {| s3_list := fun b prefix objects =>
       if broken prefix then (Throw (ServiceError (str "AccessDenied")), objects)
       else s3_list (memory_services reply) b prefix objects;
     s3_get := fun b key objects =>
       if broken key then (Throw (ServiceError (str "AccessDenied")), objects)
       else s3_get (memory_services reply) b key objects;
     bedrock_invoke := bedrock_invoke (memory_services reply);
     ses_send := ses_send (memory_services reply) |}.

(** The message S3 publishes when notifications are configured. *)
Definition s3_test_event : jsstring :=
  json_text "{'Service':'Amazon S3','Event':'s3:TestEvent','Time':'2024-01-01T00:00:00.000Z','Bucket':'B'}".

Lemma hex_value_replace_plus c :
  hex_value (if N.eqb c PLUS then SPACE else c) = hex_value c.
Proof. destruct (N.eqb_spec c PLUS) as [->|Hne]; reflexivity. Qed.

Lemma parse_escape_replace_plus b :
  parse_escape (PERCENT :: b) = None ->
  parse_escape (PERCENT :: replace_plus b) = None.
Proof.
  destruct b as [|h [|l rest]]; simpl; try reflexivity.
  rewrite !hex_value_replace_plus.
  destruct (hex_value h); [|reflexivity]. destruct (hex_value l); [discriminate|reflexivity].
Qed.

Lemma replaced_key_cases r :
  (exists raw, has_raw_key r raw /\ replaced_key r = Ok (replace_plus raw))
  \/ replaced_key r = Throw TypeError.
Proof.
  unfold replaced_key, has_raw_key.
  destruct r; try (right; reflexivity);
    cbn [member opt_member].
  all: match goal with
       | |- context [get_prop ?v (str "s3")] =>
           destruct (get_prop v (str "s3")) as [s3|]; [|right; reflexivity]
       end.
  all: destruct s3; try (right; reflexivity); cbn [member opt_member].
  all: match goal with
       | |- context [get_prop ?v (str "object")] =>
           destruct (get_prop v (str "object")) as [object|]; [|right; reflexivity]
       end.
  all: destruct object; try (right; reflexivity); cbn [member opt_member].
  all: match goal with
       | |- context [get_prop ?v (str "key")] =>
           destruct (get_prop v (str "key")) as [key|]; [|right; reflexivity]
       end.
  all: destruct key; try (right; reflexivity); left; eexists; split; reflexivity.
Qed.

Section Decoding.

Context {W : Type}.
Variable aws : Services W.
Variable rt : Runtime.
Variable env : Env.

(** X5: a key without percent sign always decodes: the key used is the
    raw key with its plus signs turned into spaces, and the record is
    processed. *)
Theorem X5_plain_key_always_decodes :
  forall (r : JSValue) (raw : jsstring) (st : State W),
  has_raw_key r raw ->
  ~ In PERCENT raw ->
  decoded_key r = Ok (replace_plus raw) /\
  process_record aws rt env r st
  = process_run aws rt env (replace_plus raw) (runOf (replace_plus raw)) st.
Proof.
  intros r raw st Hraw Hno.
  assert (Hkey : decoded_key r = Ok (replace_plus raw)).
  { unfold decoded_key. rewrite (has_raw_key_replaced Hraw).
    unfold decodeURIComponent. apply decode_loop_no_percent; [|lia].
    now apply replace_plus_no_percent. }
  split; [exact Hkey|].
  unfold process_record. now rewrite Hkey, bind_lift_ok.
Qed.

(** X16: a key with a percent sign that is not followed by two
    hexadecimal digits, wherever the sign stands in the key, makes
    [decodeURIComponent] throw a URIError on line 81: the record is left
    before any request is made, and the exception is not caught. *)
Theorem X16_stray_percent_aborts :
  forall (r : JSValue) (a b : jsstring) (st : State W),
  has_raw_key r (a ++ PERCENT :: b) ->
  parse_escape (PERCENT :: b) = None ->
  decoded_key r = Throw URIError /\
  process_record aws rt env r st = (Throw URIError, st).
Proof.
  intros r a b st Hraw Hbad.
  assert (Hkey : decoded_key r = Throw URIError).
  { unfold decoded_key. rewrite (has_raw_key_replaced Hraw).
    unfold replace_plus. rewrite map_app. cbn [map].
    change (if N.eqb PERCENT PLUS then SPACE else PERCENT) with PERCENT.
    fold (replace_plus a) (replace_plus b).
    unfold decodeURIComponent.
    apply decode_loop_stray_percent; [now apply parse_escape_replace_plus|lia]. }
  split; [exact Hkey|].
  unfold process_record. now rewrite Hkey.
Qed.

(** X7: an SNS record without message, or whose message is a JSON text
    that names no object record, is skipped: no request is made and
    nothing is thrown. *)
Theorem X7_record_without_objects_is_skipped :
  forall (rec : SnsRecord) (st : State W),
  (truthy_opt (message_of rec) = false ->
   process_sns_record aws rt env rec st = (Ok tt, st)) /\
  (forall msg, parse_message rt rec = Ok msg -> no_object_records msg ->
               process_sns_record aws rt env rec st = (Ok tt, st)).
Proof.
  intros rec st.
  assert (Hskip : forall msg, parse_message rt rec = Ok msg -> no_object_records msg ->
                              process_sns_record aws rt env rec st = (Ok tt, st)).
  { intros msg Hmsg Hnone. unfold process_sns_record. rewrite Hmsg, bind_lift_ok.
    unfold no_object_records in Hnone. unfold iterate_or_empty.
    destruct (opt_member (Some msg) (str "Records")) as [v|]; [|reflexivity].
    destruct Hnone as [Hf| ->]; [now rewrite Hf|reflexivity]. }
  split; [|exact Hskip].
  intros Hno. apply (Hskip JNull); [|exact I].
  unfold parse_message. unfold message_of in Hno.
  destruct (Sns rec) as [[[[|c m]|]]|]; try reflexivity. discriminate.
Qed.

(** X8: an object record in which [s3.object.key] is not a string makes
    line 81 throw a TypeError: the record is left before any request is
    made, and the exception is not caught. *)
Theorem X8_record_without_key_aborts :
  forall (r : JSValue) (st : State W),
  (forall raw, ~ has_raw_key r raw) ->
  process_record aws rt env r st = (Throw TypeError, st).
Proof.
  intros r st Hnone. unfold process_record, decoded_key.
  destruct (replaced_key_cases r) as [(raw & Hraw & _)|Hthrow].
  - exfalso. exact (Hnone raw Hraw).
  - now rewrite Hthrow.
Qed.

End Decoding.

Lemma X5_plain_key_always_decodes_witness :
  decoded_key (object_record (str "test-results/nightly+build/unit.xml"))
  = Ok (str "test-results/nightly build/unit.xml").
Proof.
  apply (@X5_plain_key_always_decodes _ (memory_services example_reply) node_runtime
           example_env (object_record (str "test-results/nightly+build/unit.xml"))
           (str "test-results/nightly+build/unit.xml") (start example_bucket)).
  - reflexivity.
  - vm_compute. intuition discriminate.
Defined.

Lemma X16_stray_percent_aborts_witness :
  process_record (memory_services example_reply) node_runtime example_env
    (object_record (str "test-results/run1/coverage-100%.xml")) (start example_bucket)
  = (Throw URIError, start example_bucket)
  /\ process_record (memory_services example_reply) node_runtime example_env
       (object_record (str "test-results/run1/%41%zz.xml")) (start example_bucket)
     = (Throw URIError, start example_bucket).
Proof.
  split.
  - apply (@X16_stray_percent_aborts _ (memory_services example_reply) node_runtime
             example_env (object_record (str "test-results/run1/coverage-100%.xml"))
             (str "test-results/run1/coverage-100") (str ".xml") (start example_bucket)).
    + reflexivity.
    + reflexivity.
  - apply (@X16_stray_percent_aborts _ (memory_services example_reply) node_runtime
             example_env (object_record (str "test-results/run1/%41%zz.xml"))
             (str "test-results/run1/%41") (str "zz.xml") (start example_bucket)).
    + reflexivity.
    + reflexivity.
Defined.

Lemma X7_record_without_objects_is_skipped_witness :
  process_sns_record (memory_services example_reply) node_runtime example_env
    {| Sns := None |} (start example_bucket)
  = (Ok tt, start example_bucket)
  /\ process_sns_record (memory_services example_reply) node_runtime example_env
       (sns s3_test_event) (start example_bucket)
     = (Ok tt, start example_bucket).
Proof.
  split.
  - apply (proj1 (X7_record_without_objects_is_skipped
                    (memory_services example_reply) node_runtime example_env
                    {| Sns := None |} (start example_bucket))).
    reflexivity.
  - eapply (proj2 (X7_record_without_objects_is_skipped
                     (memory_services example_reply) node_runtime example_env
                     (sns s3_test_event) (start example_bucket))).
    + vm_compute. reflexivity.
    + vm_compute. exact I.
Defined.

Lemma X8_record_without_key_aborts_witness :
  process_record (memory_services example_reply) node_runtime example_env
    (JObj [(str "eventName", JStr (str "ObjectCreated:Put"))]) (start example_bucket)
  = (Throw TypeError, start example_bucket).
Proof.
  apply (X8_record_without_key_aborts (memory_services example_reply) node_runtime
           example_env).
  intros raw H. vm_compute in H. discriminate.
Defined.

(** ** Aggregation: failures and the shape of the buffer *)

Lemma join_filter_nil (tests sonar : jsstring) :
  join [LF] (filter truthy_string [tests; sonar]) = [] -> tests = [] /\ sonar = [].
Proof.
  destruct tests as [|c t]; destruct sonar as [|d s]; simpl; try discriminate; auto.
Qed.

Section AggregationFailures.

Context {W : Type}.
Variable aws : Services W.
Variable rt : Runtime.
Variable env : Env.

(** Lines 38 and 39: the fetch of an object and the reading of its body. *)
Definition fetch_text (key : jsstring) : M W jsstring :=
  got <- send_GetObject aws env key ;;
  lift (bodyToString rt (Body got)).

(** The ways in which a read of the aggregation of a record fails: the
    first listing, the second listing after the first, or the fetch of the
    triggering object when nothing was found.  [st'] is the state at the
    failure. *)
Inductive read_fails (key : jsstring) (run : option jsstring) (st st' : State W) : Prop :=
| tests_listing_fails r e :
    run = Some r -> r <> [] ->
    listPrefixText aws rt env (tests_prefix r) st = (Throw e, st') ->
    read_fails key run st st'
| sonar_listing_fails r tests st1 e :
    run = Some r -> r <> [] ->
    listPrefixText aws rt env (tests_prefix r) st = (Ok tests, st1) ->
    listPrefixText aws rt env (sonar_prefix r) st1 = (Throw e, st') ->
    read_fails key run st st'
| triggering_fetch_fails st0 e :
    no_content aws rt env run st st0 ->
    fetch_triggering aws rt env key st0 = (Throw e, st') ->
    read_fails key run st st'.

Lemma fetch_listed_cons out obj rest c k st :
  Key obj = Some (c :: k) ->
  fetch_listed aws rt env out (obj :: rest) st
  = match fetch_text (c :: k) st with
    | (Ok text, st1) =>
        fetch_listed aws rt env (out ++ [section_of (c :: k, text)]) rest st1
    | (Throw e, st1) => (Throw e, st1)
    end.
Proof.
  intros HK. cbn [fetch_listed]. rewrite HK. unfold fetch_text, bind, lift.
  destruct (send_GetObject aws env (c :: k) st) as [[got|e] st1]; [|reflexivity].
  destruct (bodyToString rt (Body got)); reflexivity.
Qed.

Lemma fetch_listed_app pre : forall out post st,
  fetch_listed aws rt env out (pre ++ post) st
  = match fetch_listed aws rt env out pre st with
    | (Ok out1, st1) => fetch_listed aws rt env out1 post st1
    | (Throw e, st1) => (Throw e, st1)
    end.
Proof.
  induction pre as [|obj pre IH]; intros out post st; [reflexivity|].
  change ((obj :: pre) ++ post) with (obj :: (pre ++ post)).
  destruct (Key obj) as [[|c k]|] eqn:HK.
  - cbn [fetch_listed]. rewrite HK. apply IH.
  - rewrite (@fetch_listed_cons out obj (pre ++ post) c k st HK).
    rewrite (@fetch_listed_cons out obj pre c k st HK).
    destruct (fetch_text (c :: k) st) as [[text|e] st1]; [apply IH|reflexivity].
  - cbn [fetch_listed]. rewrite HK. apply IH.
Qed.

Lemma fetch_text_calls key st :
  calls (snd (fetch_text key st)) = calls st ++ [GetObject (BUCKET env) key].
Proof.
  unfold fetch_text, bind, send_GetObject, request, lift.
  destruct (s3_get aws (BUCKET env) key (world st)) as [[got|e] w']; reflexivity.
Qed.

Lemma fetch_triggering_ok_inv key st text st' :
  fetch_triggering aws rt env key st = (Ok text, st') ->
  exists body, text = section_of (key, body)
               /\ calls st' = calls st ++ [GetObject (BUCKET env) key].
Proof.
  intros H. unfold fetch_triggering in H.
  apply bind_ok_inv in H as (got & st1 & Hget & H).
  apply bind_ok_inv in H as (body & st2 & Hbody & H).
  apply request_ok_inv in Hget as (w' & _ & ->).
  apply lift_ok_inv in Hbody as (_ & ->).
  inversion H; subst. now exists body.
Qed.

Lemma collect_of_listings key c r st tests st1 sonar st2 :
  listPrefixText aws rt env (tests_prefix (c :: r)) st = (Ok tests, st1) ->
  listPrefixText aws rt env (sonar_prefix (c :: r)) st1 = (Ok sonar, st2) ->
  join [LF] (filter truthy_string [tests; sonar]) <> [] ->
  collect aws rt env key (Some (c :: r)) st
  = (Ok (join [LF] (filter truthy_string [tests; sonar])), st2).
Proof.
  intros Ht Hs Hne. unfold collect, try_catch.
  fold (tests_prefix (c :: r)) (sonar_prefix (c :: r)).
  erewrite bind_ok with (a := join [LF] (filter truthy_string [tests; sonar])) (st1 := st2).
  - destruct (join [LF] (filter truthy_string [tests; sonar])); [contradiction|reflexivity].
  - erewrite bind_ok by exact Ht. erewrite bind_ok by exact Hs. reflexivity.
Qed.

Lemma collect_read_fails key run st st' :
  read_fails key run st st' -> collect aws rt env key run st = (Ok [], st').
Proof.
  intros [r e -> Hr Ht | r tests st1 e -> Hr Ht Hs | st0 e Hnone Hf].
  - destruct r as [|c r]; [contradiction|].
    unfold collect, try_catch. fold (tests_prefix (c :: r)) (sonar_prefix (c :: r)).
    erewrite bind_throw; [reflexivity|]. erewrite bind_throw by exact Ht. reflexivity.
  - destruct r as [|c r]; [contradiction|].
    unfold collect, try_catch. fold (tests_prefix (c :: r)) (sonar_prefix (c :: r)).
    erewrite bind_throw; [reflexivity|].
    erewrite bind_ok by exact Ht. erewrite bind_throw by exact Hs. reflexivity.
  - rewrite (collect_no_content key Hnone). unfold try_catch. now rewrite Hf.
Qed.

(** The keys of the [GetObject] requests of a trace, in order. *)
Definition fetched_keys (trace : list Call) : list jsstring :=
  flat_map (fun c => match c with GetObject _ k => [k] | _ => [] end) trace.

(** A stretch of the aggregation in which every request is answered: it
    is made of listings that resolve and of fetches whose body is read.
    [fetched] holds the objects fetched in the stretch, in order, each with
    the text read from the body that was answered for it. *)
Inductive answered : State W -> list (jsstring * jsstring) -> State W -> Prop :=
| answered_done st : answered st [] st
| answered_listing prefix out st st1 fetched st2 :
    send_ListObjectsV2 aws env prefix st = (Ok out, st1) ->
    answered st1 fetched st2 ->
    answered st fetched st2
| answered_fetch k text st st1 fetched st2 :
    fetch_text k st = (Ok text, st1) ->
    answered st1 fetched st2 ->
    answered st ((k, text) :: fetched) st2.

Lemma answered_app st f1 st1 f2 st2 :
  answered st f1 st1 -> answered st1 f2 st2 -> answered st (f1 ++ f2) st2.
Proof.
  intros H1 H2. induction H1 as [s|prefix out s s1 f s2 Hl _ IH|k text s s1 f s2 Hf _ IH].
  - exact H2.
  - eapply answered_listing; [exact Hl|now apply IH].
  - simpl. eapply answered_fetch; [exact Hf|now apply IH].
Qed.

Lemma answered_calls st fetched st' :
  answered st fetched st' ->
  exists new, calls st' = calls st ++ new /\ fetched_keys new = map fst fetched.
Proof.
  intros H. induction H as [s|prefix out s s1 f s2 Hl _ (new & Hc & Hk)
                             |k text s s1 f s2 Hf _ (new & Hc & Hk)].
  - exists []. split; [now rewrite app_nil_r|reflexivity].
  - apply request_ok_inv in Hl as (w' & _ & ->). simpl in Hc.
    exists (ListObjectsV2 (BUCKET env) prefix :: new). split.
    + now rewrite Hc, <- app_assoc.
    + exact Hk.
  - pose proof (fetch_text_calls k s) as Hg. rewrite Hf in Hg. simpl in Hg.
    exists (GetObject (BUCKET env) k :: new). split.
    + now rewrite Hc, Hg, <- app_assoc.
    + simpl. now rewrite Hk.
Qed.

Lemma fetch_listed_answered objs : forall out st out' st',
  fetch_listed aws rt env out objs st = (Ok out', st') ->
  exists fetched, out' = out ++ map section_of fetched /\ answered st fetched st'.
Proof.
  induction objs as [|obj rest IH]; intros out st out' st' H.
  - inversion H; subst. exists []. split; [now rewrite app_nil_r|constructor].
  - destruct (Key obj) as [[|c k]|] eqn:HK.
    + cbn [fetch_listed] in H. rewrite HK in H. now apply IH.
    + rewrite (@fetch_listed_cons out obj rest c k st HK) in H.
      destruct (fetch_text (c :: k) st) as [[text|e] st1] eqn:Hf; [|discriminate].
      apply IH in H as (fetched & -> & Ha).
      exists ((c :: k, text) :: fetched). split.
      * simpl. now rewrite <- app_assoc.
      * eapply answered_fetch; [exact Hf|exact Ha].
    + cbn [fetch_listed] in H. rewrite HK in H. now apply IH.
Qed.

Lemma listPrefixText_answered prefix st text st' :
  listPrefixText aws rt env prefix st = (Ok text, st') ->
  exists fetched, text = join [LF] (map section_of fetched) /\ answered st fetched st'.
Proof.
  intros H. unfold listPrefixText in H.
  apply bind_ok_inv in H as (out & st1 & Hlist & H).
  apply bind_ok_inv in H as (secs & st2 & Hfetch & H).
  inversion H; subst; clear H.
  apply fetch_listed_answered in Hfetch as (fetched & -> & Ha).
  exists fetched. split; [reflexivity|].
  eapply answered_listing; [exact Hlist|exact Ha].
Qed.

Lemma fetch_triggering_answered key st text st' :
  fetch_triggering aws rt env key st = (Ok text, st') ->
  exists body, text = section_of (key, body) /\ fetch_text key st = (Ok body, st').
Proof.
  unfold fetch_triggering, fetch_text, bind, lift.
  destruct (send_GetObject aws env key st) as [[got|e] st1]; [|discriminate].
  destruct (bodyToString rt (Body got)) as [body|e]; [|discriminate].
  intros H. inversion H; subst. now exists body.
Qed.

Lemma no_content_answered run st st0 :
  no_content aws rt env run st st0 -> answered st [] st0.
Proof.
  intros [_ -> | r st1 _ _ Ht Hs]; [constructor|].
  apply listPrefixText_answered in Ht as (f1 & E1 & A1).
  apply listPrefixText_answered in Hs as (f2 & E2 & A2).
  symmetry in E1, E2. apply join_sections_nil in E1, E2. subst f1 f2.
  exact (answered_app A1 A2).
Qed.

(** The two outcomes of the aggregation of a record. *)
Definition aggregation_outcome (key : jsstring) (run : option jsstring)
           (st : State W) (text : jsstring) (st' : State W) : Prop :=
  (text = [] /\ read_fails key run st st')
  \/ (exists (fetched : list (jsstring * jsstring)) (new : list Call),
        fetched <> [] /\ text <> [] /\
        text = join [LF] (map (fun kt => file_section (fst kt) (truncate (snd kt))) fetched) /\
        answered st fetched st' /\
        calls st' = calls st ++ new /\
        fetched_keys new = map fst fetched).

Lemma collect_outcome key run st :
  exists text st',
    collect aws rt env key run st = (Ok text, st')
    /\ aggregation_outcome key run st text st'.
Proof.
  assert (Hsections : forall fetched st', fetched <> [] -> answered st fetched st' ->
            aggregation_outcome key run st (join [LF] (map section_of fetched)) st').
  { intros fetched st' Hne Ha. right.
    destruct (answered_calls Ha) as (new & Hc & Hk).
    exists fetched, new. repeat split; auto.
    intros E. apply join_sections_nil in E. contradiction. }
  assert (Hfallback : forall st0, no_content aws rt env run st st0 ->
            exists text st',
              collect aws rt env key run st = (Ok text, st')
              /\ aggregation_outcome key run st text st').
  { intros st0 Hnone. rewrite (collect_no_content key Hnone). unfold try_catch.
    destruct (fetch_triggering aws rt env key st0) as [[text|e] st'] eqn:E.
    - exists text, st'. split; [reflexivity|].
      apply fetch_triggering_answered in E as (body & -> & Hf).
      apply (Hsections [(key, body)]); [discriminate|].
      apply (answered_app (no_content_answered Hnone)).
      eapply answered_fetch; [exact Hf|constructor].
    - exists [], st'. split; [reflexivity|]. left. split; [reflexivity|].
      eapply triggering_fetch_fails; [exact Hnone|exact E]. }
  destruct run as [[|c r]|].
  - apply (Hfallback st). now apply no_grouping_key.
  - destruct (listPrefixText aws rt env (tests_prefix (c :: r)) st)
      as [[tests|e] st1] eqn:Ht.
    2:{ assert (F : read_fails key (Some (c :: r)) st st1)
          by (eapply tests_listing_fails; [reflexivity|discriminate|exact Ht]).
        exists [], st1. split; [now apply collect_read_fails|]. left. now split. }
    destruct (listPrefixText aws rt env (sonar_prefix (c :: r)) st1)
      as [[sonar|e] st2] eqn:Hs.
    2:{ assert (F : read_fails key (Some (c :: r)) st st2)
          by (eapply sonar_listing_fails; [reflexivity|discriminate|exact Ht|exact Hs]).
        exists [], st2. split; [now apply collect_read_fails|]. left. now split. }
    destruct (join [LF] (filter truthy_string [tests; sonar])) as [|x xs] eqn:E.
    + apply join_filter_nil in E as [-> ->]. apply (Hfallback st2).
      eapply empty_listings; [reflexivity|discriminate|exact Ht|exact Hs].
    + exists (x :: xs), st2. split.
      * erewrite collect_of_listings; [|exact Ht|exact Hs|rewrite E; discriminate].
        now rewrite E.
      * apply listPrefixText_answered in Ht as (f1 & Et & A1).
        apply listPrefixText_answered in Hs as (f2 & Es & A2).
        rewrite <- E, (join_two _ _ Et Es).
        apply Hsections; [|exact (answered_app A1 A2)].
        intros Hnil. rewrite (join_two _ _ Et Es), Hnil in E. discriminate.
  - apply (Hfallback st). now apply no_grouping_key.
Qed.

(** X9: a read that fails leaves the buffer empty and throws nothing:
    when the first listing fails, when the second listing fails (the text
    of the first listing is then dropped), and when the fetch of the
    triggering object fails.  After a failed listing the triggering object
    is not fetched. *)
Theorem X9_failed_read_empties_buffer :
  forall (key : jsstring) (run : option jsstring) (st st' : State W),
  read_fails key run st st' ->
  collect aws rt env key run st = (Ok [], st').
Proof. intros key run st st' H. now apply collect_read_fails. Qed.

(** X10: whatever the services answer, the aggregation of a record does
    not throw, and it ends in one of two ways.  Either a read has failed
    (one of the three cases of [read_fails]) and the buffer is empty.  Or
    every request of the aggregation was answered, and the buffer is not
    empty: it is the sections of all the objects fetched during the
    aggregation, in the order in which they were fetched, each with the
    truncated text read from the body answered for it, joined by line
    feeds; the [GetObject] requests added to the trace are those of the
    fetched objects, in that order. *)
Theorem X10_buffer_is_sections_of_fetched_objects :
  forall (key : jsstring) (run : option jsstring) (st : State W),
  exists (text : jsstring) (st' : State W),
    collect aws rt env key run st = (Ok text, st') /\
    ((text = [] /\ read_fails key run st st')
     \/ (exists (fetched : list (jsstring * jsstring)) (new : list Call),
           fetched <> [] /\ text <> [] /\
           text = join [LF]
                    (map (fun kt => file_section (fst kt) (truncate (snd kt))) fetched) /\
           answered st fetched st' /\
           calls st' = calls st ++ new /\
           fetched_keys new = map fst fetched)).
Proof. intros key run st. apply collect_outcome. Qed.

(** X15: when the fetch of a listed object fails (the request is
    rejected, or its body cannot be read), the loop over the listing stops
    there: the objects after it are not fetched, the sections read before
    it are lost, and [listPrefixText] throws. *)
Theorem X15_failed_fetch_aborts_listing :
  forall (pre post : list S3Object) (obj : S3Object) (k : jsstring)
         (out out1 : list jsstring) (st st1 st2 : State W) (e : JSError),
  Key obj = Some k -> truthy_string k = true ->
  fetch_listed aws rt env out pre st = (Ok out1, st1) ->
  fetch_text k st1 = (Throw e, st2) ->
  fetch_listed aws rt env out (pre ++ obj :: post) st = (Throw e, st2) /\
  calls st2 = calls st1 ++ [GetObject (BUCKET env) k] /\
  (forall prefix st0 listing w,
      s3_list aws (BUCKET env) prefix (world st0) = (Ok listing, w) ->
      contents_of listing = pre ++ obj :: post ->
      out = [] ->
      st = {| world := w; calls := calls st0 ++ [ListObjectsV2 (BUCKET env) prefix] |} ->
      listPrefixText aws rt env prefix st0 = (Throw e, st2)).
Proof.
  intros pre post obj k out out1 st st1 st2 e HK Hk Hpre Hfetch.
  destruct k as [|c k]; [discriminate|].
  assert (Hall : fetch_listed aws rt env out (pre ++ obj :: post) st = (Throw e, st2)).
  { rewrite fetch_listed_app, Hpre, (@fetch_listed_cons out1 obj post c k st1 HK).
    now rewrite Hfetch. }
  split; [exact Hall|]. split.
  - pose proof (fetch_text_calls (c :: k) st1) as Hc. now rewrite Hfetch in Hc.
  - intros prefix st0 listing w Hlist Hcontents -> ->.
    unfold listPrefixText.
    erewrite bind_ok with (a := listing)
      (st1 := {| world := w; calls := calls st0 ++ [ListObjectsV2 (BUCKET env) prefix] |}).
    + erewrite bind_throw; [reflexivity|].
      unfold contents_of in Hcontents. rewrite Hcontents. exact Hall.
    + unfold send_ListObjectsV2, request. now rewrite Hlist.
Qed.

End AggregationFailures.

Lemma X9_failed_read_empties_buffer_witness :
  let aws := broken_services (has_prefix (str "sonarqube/")) example_reply in
  let st := start example_bucket in
  let listed1 := listPrefixText aws node_runtime example_env (tests_prefix (str "run1")) st in
  let listed2 := listPrefixText aws node_runtime example_env (sonar_prefix (str "run1"))
                   (snd listed1) in
  collect aws node_runtime example_env (str "test-results/run1/unit.xml")
          (Some (str "run1")) st
  = (Ok [], snd listed2).
Proof.
  intros aws st listed1 listed2.
  apply (@X9_failed_read_empties_buffer _ aws node_runtime example_env).
  eapply (@sonar_listing_fails _ aws node_runtime example_env _ _ st (snd listed2)
            (str "run1") _ (snd listed1)).
  - reflexivity.
  - discriminate.
  - vm_compute. reflexivity.
  - vm_compute. reflexivity.
Defined.

Lemma X15_failed_fetch_aborts_listing_witness :
  let aws := broken_services (js_eqb (str "test-results/run1/e2e.xml")) example_reply in
  listPrefixText aws node_runtime example_env (tests_prefix (str "run1"))
                 (start example_bucket)
  = (Throw (ServiceError (str "AccessDenied")),
     {| world := example_bucket;
        calls := [ListObjectsV2 (Some (str "B")) (str "test-results/run1/");
                  GetObject (Some (str "B")) (str "test-results/run1/unit.xml");
                  GetObject (Some (str "B")) (str "test-results/run1/e2e.xml")] |}).
Proof.
  intros aws.
  pose (st := {| world := example_bucket;
                 calls := [ListObjectsV2 (Some (str "B")) (str "test-results/run1/")] |}).
  pose (st1 := {| world := example_bucket;
                  calls := [ListObjectsV2 (Some (str "B")) (str "test-results/run1/");
                            GetObject (Some (str "B")) (str "test-results/run1/unit.xml")] |}).
  pose (first := fetch_listed aws node_runtime example_env []
                   [{| Key := Some (str "test-results/run1/unit.xml") |}] st).
  destruct (@X15_failed_fetch_aborts_listing _ aws node_runtime example_env
              [{| Key := Some (str "test-results/run1/unit.xml") |}] []
              {| Key := Some (str "test-results/run1/e2e.xml") |}
              (str "test-results/run1/e2e.xml") []
              (match fst first with Ok out1 => out1 | Throw _ => [] end)
              st st1
              {| world := example_bucket;
                 calls := [ListObjectsV2 (Some (str "B")) (str "test-results/run1/");
                           GetObject (Some (str "B")) (str "test-results/run1/unit.xml");
                           GetObject (Some (str "B")) (str "test-results/run1/e2e.xml")] |}
              (ServiceError (str "AccessDenied")))
    as (_ & _ & H).
  - reflexivity.
  - reflexivity.
  - vm_compute. reflexivity.
  - vm_compute. reflexivity.
  - eapply H.
    + vm_compute. reflexivity.
    + reflexivity.
    + reflexivity.
    + reflexivity.
Defined.

(** ** One prompt and one mail for every object record *)

Definition count_calls (p : Call -> bool) (trace : list Call) : nat :=
  length (filter p trace).

Lemma count_calls_app p a b : count_calls p (a ++ b) = count_calls p a + count_calls p b.
Proof. unfold count_calls. now rewrite filter_app, length_app. Qed.

Lemma count_calls_s3 p trace :
  (forall c, is_s3_request c -> p c = false) ->
  Forall is_s3_request trace -> count_calls p trace = 0.
Proof.
  intros Hp H. unfold count_calls. induction H as [|c l Hc _ IH]; [reflexivity|].
  simpl. now rewrite (Hp c Hc).
Qed.

Lemma falsy_length_printable report :
  truthy report = false -> length_unprintable report = false.
Proof. destruct report; simpl; intros H; try reflexivity; discriminate. Qed.

Section OneMailPerRecord.

Context {W : Type}.
Variable aws : Services W.
Variable rt : Runtime.
Variable env : Env.

(** A computation that does not throw and adds [n] requests selected by
    [p] to the trace. *)
Definition adds (p : Call -> bool) {A} (m : M W A) (n : nat) : Prop :=
  forall st, (exists a, fst (m st) = Ok a)
             /\ count_calls p (calls (snd (m st))) = count_calls p (calls st) + n.

Lemma adds_for_each {A} p (f : A -> M W unit) (weight : A -> nat) xs :
  (forall x, In x xs -> adds p (f x) (weight x)) ->
  adds p (for_each f xs) (list_sum (map weight xs)).
Proof.
  induction xs as [|x rest IH]; intros Hf st; simpl.
  - split; [now exists tt|lia].
  - unfold bind. destruct (Hf x (or_introl eq_refl) st) as ((u & Hu) & Hc).
    destruct (f x st) as [[u'|e] st1]; simpl in Hu, Hc; [|discriminate].
    destruct (IH (fun y Hy => Hf y (or_intror Hy)) st1) as (Ht & Hc').
    split; [exact Ht|]. rewrite Hc', Hc. lia.
Qed.

Lemma process_run_requests key run st :
  exists (s3calls : list Call) (collected : jsstring) (report : JSValue),
    Forall is_s3_request s3calls /\
    fst (collect aws rt env key run st) = Ok collected /\
    fst (summarize aws rt env collected (snd (collect aws rt env key run st))) = Ok report /\
    fst (process_run aws rt env key run st) = Ok tt /\
    calls (snd (process_run aws rt env key run st))
    = calls st ++ s3calls
        ++ [InvokeModel (MODEL_ID env) (str "application/json") (str "application/json")
              (bedrock_request (buildPrompt (prompt_buffer collected)));
            SendEmail (SENDER env) (RECIPIENTS env) (subject_of (SUBJECT_PREFIX env) run)
              (email_body report)].
Proof.
  destruct (total_collect aws rt env key run st) as (collected & Hcol).
  destruct (@issues_collect _ aws rt env is_s3_request key run
              (fun _ _ => I) (fun _ _ => I) st) as (s3calls & Hs3 & Hall).
  unfold process_run, bind.
  destruct (collect aws rt env key run st) as [rc st1]. simpl in Hcol, Hs3. subst rc.
  cbn [fst snd].
  destruct (total_summarize aws rt env collected st1) as (report & Hrep).
  pose proof (summarize_calls aws rt env collected st1) as Hsum.
  destruct (summarize aws rt env collected st1) as [rr st2] eqn:Esum.
  simpl in Hrep, Hsum. subst rr.
  destruct (total_deliver aws env run report st2) as (u & Hu).
  pose proof (deliver_calls aws env run report st2) as Hdel.
  destruct (deliver aws env run report st2) as [ru st3]. simpl in Hu, Hdel. subst ru.
  exists s3calls, collected, report. repeat split; auto.
  - now rewrite Esum.
  - simpl. now destruct u.
  - simpl. rewrite Hdel, Hsum, Hs3, <- !app_assoc. reflexivity.
Qed.

Lemma adds_process_run key run :
  adds is_SendEmail (process_run aws rt env key run) 1 /\
  adds is_InvokeModel (process_run aws rt env key run) 1.
Proof.
  split; intros st;
    destruct (process_run_requests key run st)
      as (s3calls & collected & report & Hs3 & _ & _ & Hok & Hcalls);
    (split; [now exists tt|]);
    rewrite Hcalls, !count_calls_app;
    rewrite (@count_calls_s3 _ s3calls) by (try exact Hs3; intros [] H; try reflexivity; destruct H);
    unfold count_calls; simpl; lia.
Qed.

Lemma adds_process_sns_record p rec :
  (forall key run, adds p (process_run aws rt env key run) 1) ->
  decodes rt rec ->
  adds p (process_sns_record aws rt env rec) (length (object_records rt rec)).
Proof.
  intros Hrun (msg & s3Recs & Hmsg & Hiter & Hkeys).
  unfold process_sns_record, object_records.
  rewrite Hmsg, bind_lift_ok, Hiter, bind_lift_ok.
  replace (length s3Recs) with (list_sum (map (fun _ : JSValue => 1) s3Recs))
    by (clear; induction s3Recs; simpl; auto).
  apply adds_for_each. intros r Hr. destruct (Hkeys r Hr) as (key & Hkey).
  unfold process_record. rewrite Hkey, bind_lift_ok. apply Hrun.
Qed.

Lemma adds_handler p event :
  (forall key run, adds p (process_run aws rt env key run) 1) ->
  (forall rec, In rec (match Records event with Some recs => recs | None => [] end) ->
               decodes rt rec) ->
  adds p (handler aws rt env event)
       (length (flat_map (object_records rt)
                  (match Records event with Some recs => recs | None => [] end))).
Proof.
  intros Hrun Hdec st. unfold handler, bind.
  set (recs := match Records event with Some recs => recs | None => [] end) in *.
  replace (length (flat_map (object_records rt) recs))
    with (list_sum (map (fun rec => length (object_records rt rec)) recs))
    by (clear; induction recs; simpl; rewrite ?length_app; auto).
  destruct (@adds_for_each _ p (process_sns_record aws rt env)
              (fun rec => length (object_records rt rec)) recs
              (fun rec Hin => adds_process_sns_record Hrun (Hdec rec Hin)) st)
    as ((u & Hu) & Hc).
  destruct (for_each _ recs st) as [[u'|e] st1]; simpl in Hu, Hc; [|discriminate].
  split; [eexists; reflexivity|exact Hc].
Qed.

(** X11: once its key is decoded, a record never throws, whatever the
    services answer, and its requests are: requests to S3, then exactly one
    [InvokeModel], whose prompt is built over the aggregated buffer, then
    exactly one [SendEmail], to the configured recipients, with the subject
    of the run, whose body is the report (or its placeholder). *)
Theorem X11_requests_of_a_record :
  forall (key : jsstring) (run : option jsstring) (st : State W),
  exists (s3calls : list Call) (collected : jsstring) (report : JSValue),
    Forall is_s3_request s3calls /\
    fst (collect aws rt env key run st) = Ok collected /\
    fst (summarize aws rt env collected (snd (collect aws rt env key run st))) = Ok report /\
    fst (process_run aws rt env key run st) = Ok tt /\
    calls (snd (process_run aws rt env key run st))
    = calls st ++ s3calls
        ++ [InvokeModel (MODEL_ID env) (str "application/json") (str "application/json")
              (bedrock_request (buildPrompt (prompt_buffer collected)));
            SendEmail (SENDER env) (RECIPIENTS env) (subject_of (SUBJECT_PREFIX env) run)
              (email_body report)].
Proof. intros key run st. apply process_run_requests. Qed.

(** X12: when every record of the payload decodes, the handler returns,
    and it has sent one prompt and one mail for every object record of the
    payload, whatever the services answered. *)
Theorem X12_one_mail_per_object_record :
  forall (event : Event) (st : State W),
  (forall rec, In rec (match Records event with Some recs => recs | None => [] end) ->
               decodes rt rec) ->
  let objects := flat_map (object_records rt)
                   (match Records event with Some recs => recs | None => [] end) in
  fst (handler aws rt env event st) = Ok {| ok := true |} /\
  count_calls is_SendEmail (calls (snd (handler aws rt env event st)))
  = count_calls is_SendEmail (calls st) + length objects /\
  count_calls is_InvokeModel (calls (snd (handler aws rt env event st)))
  = count_calls is_InvokeModel (calls st) + length objects.
Proof.
  intros event st Hdec objects. split; [now apply handler_completes|]. split.
  - apply (adds_handler (p := is_SendEmail)); [|exact Hdec].
    intros key run. apply adds_process_run.
  - apply (adds_handler (p := is_InvokeModel)); [|exact Hdec].
    intros key run. apply adds_process_run.
Qed.

(** X14: when the model answers a JSON text in which
    [results[0].outputText] is absent, or is [null], empty, zero or
    [false], the call has not failed: the mail is sent with the body
    [(empty report)], not with the failure notice and the buffer. *)
Theorem X14_answer_without_text_gives_placeholder :
  forall (collected : jsstring) (run : option jsstring) (st : State W)
         (resp : InvokeModelOutput) (w' : W) (decoded : JSValue),
  bedrock_invoke aws (MODEL_ID env)
    (bedrock_request (buildPrompt (prompt_buffer collected))) (world st) = (Ok resp, w') ->
  JSON_parse rt (TextDecoder_decode rt (body resp)) = Some decoded ->
  truthy (output_text decoded) = false ->
  calls (snd ((report <- summarize aws rt env collected ;; deliver aws env run report) st))
  = calls st
      ++ [InvokeModel (MODEL_ID env) (str "application/json") (str "application/json")
            (bedrock_request (buildPrompt (prompt_buffer collected)));
          SendEmail (SENDER env) (RECIPIENTS env) (subject_of (SUBJECT_PREFIX env) run)
            (JStr (str "(empty report)"))].
Proof.
  intros collected run st resp w' decoded Hinvoke Hparse Hfalsy.
  assert (Hsum : summarize aws rt env collected st
                 = (Ok (output_text decoded),
                    {| world := w';
                       calls := calls st
                                  ++ [InvokeModel (MODEL_ID env) (str "application/json")
                                        (str "application/json")
                                        (bedrock_request
                                           (buildPrompt (prompt_buffer collected)))] |})).
  { unfold summarize, try_catch, bind, request, lift, log_chars.
    rewrite prompt_buffer_eq, Hinvoke, Hparse.
    now rewrite (falsy_length_printable _ Hfalsy). }
  unfold bind. rewrite Hsum, deliver_calls. cbn [calls].
  unfold email_body. rewrite Hfalsy. now rewrite <- app_assoc.
Qed.

End OneMailPerRecord.

(** An object record that holds nothing but its key. *)
Definition key_only_record (raw : jsstring) : JSValue :=
  JObj [(str "s3", JObj [(str "object", JObj [(str "key", JStr raw)])])].

(** A payload of two SNS records: a message with two object records and
    the test event of S3. *)
Definition two_objects_message : jsstring :=
  json_text "{'Records':[{'s3':{'object':{'key':'test-results/run1/unit.xml'}}},{'s3':{'object':{'key':'notes.txt'}}}]}".

Lemma X12_one_mail_per_object_record_witness :
  let result := handler (memory_services refused_reply) node_runtime example_env
                  {| Records := Some [sns two_objects_message; sns s3_test_event] |}
                  (start example_bucket) in
  fst result = Ok {| ok := true |} /\
  count_calls is_SendEmail (calls (snd result)) = 2 /\
  count_calls is_InvokeModel (calls (snd result)) = 2.
Proof.
  intros result.
  destruct (@X12_one_mail_per_object_record _ (memory_services refused_reply)
              node_runtime example_env
              {| Records := Some [sns two_objects_message; sns s3_test_event] |}
              (start example_bucket))
    as (Hok & Hsend & Hinvoke).
  - intros rec [<-|[<-|[]]].
    + exists (JObj [(str "Records",
                     JArr [key_only_record (str "test-results/run1/unit.xml");
                           key_only_record (str "notes.txt")])]).
      exists [key_only_record (str "test-results/run1/unit.xml");
              key_only_record (str "notes.txt")].
      split; [vm_compute; reflexivity|]. split; [reflexivity|].
      intros r [<-|[<-|[]]]; eexists; vm_compute; reflexivity.
    + eexists. exists []. split; [vm_compute; reflexivity|].
      split; [reflexivity|]. intros r [].
  - split; [exact Hok|]. split; [exact Hsend|exact Hinvoke].
Defined.

Lemma X14_answer_without_text_gives_placeholder_witness :
  calls (snd ((report <- summarize (memory_services (Ok {| body := json_text "{'results':[]}" |}))
                           node_runtime example_env (str "raw data") ;;
               deliver (memory_services (Ok {| body := json_text "{'results':[]}" |}))
                       example_env (Some (str "run1")) report)
                (start example_bucket)))
  = [InvokeModel (str "amazon.titan-text-express-v1") (str "application/json")
       (str "application/json") (bedrock_request (buildPrompt (str "raw data")));
     SendEmail (Some (str "ci@example.com")) [str "dev@example.com"; str "qa@example.com"]
       (str "[CI] CI Report - run1") (JStr (str "(empty report)"))].
Proof.
  eapply (@X14_answer_without_text_gives_placeholder _
            (memory_services (Ok {| body := json_text "{'results':[]}" |}))
            node_runtime example_env (str "raw data") (Some (str "run1"))
            (start example_bucket)).
  - reflexivity.
  - vm_compute. reflexivity.
  - reflexivity.
Defined.

Lemma X2_truncate_length_witness :
  length (truncate_at 4 (str "<testsuite/>")) = 4 + 22 + 1.
Proof.
  apply (proj1 (proj2 (X2_truncate_length 4 (str "<testsuite/>")))).
  apply Nat.ltb_lt. reflexivity.
Defined.
